(** * Activity Board Client: a shallow embedding of [src/static/script.js]

    The script fetches the activity list, renders one card per activity
    into a container element and posts sign-up requests.  The embedding
    follows the script function by function:

    - JavaScript strings are sequences of UTF-16 code units;
    - values returned by [response.json()] are JSON trees;
    - abrupt completions ([throw]) are explicit, and [try]/[catch] is a
      combinator of a small state-and-exception monad;
    - the page (container element, e-mail input) and the observable
      effects ([fetch], [alert], [console.error]) are the monad's state.

    Assumptions of the embedding: the two elements looked up at the top of
    the script exist; JSON numbers are safe integers (of magnitude below
    [2^53]), the range on which JavaScript prints a number digit for digit;
    the markup assigned to [innerHTML] is kept as the string that was
    assigned. *)

From Stdlib Require Import List Bool Arith ZArith NArith Lia ZifyBool.
From Stdlib Require Import Ascii String DecimalString.
Import ListNotations.

Set Implicit Arguments.
#[local] Set Warnings "-register-all".

(** ** JavaScript strings *)

Module JsString.

(** A string is the list of its UTF-16 code units. *)
Definition jsstring := list N.

(** A literal of the script, written in ASCII. *)
Definition lit (s : string) : jsstring :=
  List.map N_of_ascii (list_ascii_of_string s).

Definition dquote : jsstring := [34%N].
Definition newline : jsstring := [10%N].

Definition eqb (s t : jsstring) : bool :=
  if list_eq_dec N.eq_dec s t then true else false.

(** [WhiteSpace] and [LineTerminator] of ECMAScript: the code points that
    [String.prototype.trim] strips (all of them are single code units). *)
Definition isWhiteSpace (c : N) : bool :=
  ((9 <=? c) && (c <=? 13) || (c =? 32) || (c =? 160) || (c =? 5760)
   || (8192 <=? c) && (c <=? 8202) || (c =? 8232) || (c =? 8233)
   || (c =? 8239) || (c =? 8287) || (c =? 12288) || (c =? 65279))%N.

Fixpoint trimStart (s : jsstring) : jsstring :=
  match s with
  | c :: s' => if isWhiteSpace c then trimStart s' else s
  | [] => []
  end.

Definition trimEnd (s : jsstring) : jsstring := rev (trimStart (rev s)).

(** [s.trim()] *)
Definition trim (s : jsstring) : jsstring := trimEnd (trimStart s).

Fixpoint startsWith (s p : jsstring) : bool :=
  match p, s with
  | [], _ => true
  | _ :: _, [] => false
  | a :: p', b :: s' => (a =? b)%N && startsWith s' p'
  end.

(** [s.includes(p)] *)
Fixpoint includes (s p : jsstring) : bool :=
  startsWith s p ||
  match s with
  | [] => false
  | _ :: s' => includes s' p
  end.

(** Number::toString for a safe integer ([Number.isSafeInteger]: magnitude
    at most [2^53 - 1]): plain decimal notation, digit for digit.  Beyond
    that range JavaScript prints the shortest digits that denote the same
    double, and from [1e21] on an exponent; statements that print a number
    carry the bound. *)
Definition ofZ (n : Z) : jsstring := lit (NilZero.string_of_int (Z.to_int n)).

(** [String(i)] for an array index. *)
Definition ofNat (i : nat) : jsstring := ofZ (Z.of_nat i).

Definition isDigit (c : N) : bool := ((48 <=? c) && (c <=? 57))%N.

End JsString.
Import JsString.

(** ** Completions *)

(** The exceptions the script can meet.  A failed [fetch] rejects with a
    [TypeError] in browsers; it is kept apart here so that a transport
    failure can be told from a failure of the script's own evaluation. *)
Inductive JsError : Type :=
| TypeError
| URIError
| SyntaxError
| NetworkError.

(** The result of evaluating an expression: a value, or a [throw]. *)
Inductive Completion (A : Type) : Type :=
| Normal (a : A)
| Throw (e : JsError).
Arguments Normal {A} a.
Arguments Throw {A} e.

Definition cbind {A B} (c : Completion A) (k : A -> Completion B) : Completion B :=
  match c with
  | Normal a => k a
  | Throw e => Throw e
  end.

Notation "'let?' x ':=' c 'in' k" := (cbind c (fun x => k))
  (at level 10, x name, c at level 100, k at level 200).

(** ** [encodeURIComponent] *)

Module URI.

(** The characters [encodeURIComponent] leaves alone: ASCII letters, digits
    and [- _ . ! ~ * ' ( )]. *)
Definition isUnreserved (c : N) : bool :=
  ((65 <=? c) && (c <=? 90) || (97 <=? c) && (c <=? 122) || isDigit c
   || (c =? 45) || (c =? 95) || (c =? 46) || (c =? 33) || (c =? 126)
   || (c =? 42) || (c =? 39) || (c =? 40) || (c =? 41))%N.

Definition isLeadingSurrogate (c : N) : bool := ((55296 <=? c) && (c <=? 56319))%N.
Definition isTrailingSurrogate (c : N) : bool := ((56320 <=? c) && (c <=? 57343))%N.

(** UTF16SurrogatePairToCodePoint *)
Definition surrogatePair (lead trail : N) : N :=
  ((lead - 55296) * 1024 + (trail - 56320) + 65536)%N.

(** The UTF-8 octets of a code point. *)
Definition utf8 (cp : N) : list N :=
  (if cp <? 128 then [cp]
   else if cp <? 2048 then [192 + cp / 64; 128 + cp mod 64]
   else if cp <? 65536 then
     [224 + cp / 4096; 128 + (cp / 64) mod 64; 128 + cp mod 64]
   else
     [240 + cp / 262144; 128 + (cp / 4096) mod 64;
      128 + (cp / 64) mod 64; 128 + cp mod 64])%N.

Definition hexDigit (d : N) : N := (if d <? 10 then 48 + d else 55 + d)%N.

(** One octet as [%XX], upper-case hexadecimal. *)
Definition escapeOctet (b : N) : jsstring :=
  [37%N; hexDigit (b / 16); hexDigit (b mod 16)].

Definition escape (cp : N) : jsstring := flat_map escapeOctet (utf8 cp).

(** The abstract operation Encode with the unreserved set of
    [encodeURIComponent]: an unpaired surrogate raises [URIError]. *)
Fixpoint encodeURIComponent (s : jsstring) : Completion jsstring :=
  match s with
  | [] => Normal []
  | c :: rest =>
      if isUnreserved c then
        let? r := encodeURIComponent rest in Normal (c :: r)
      else if isLeadingSurrogate c then
        match rest with
        | d :: rest' =>
            if isTrailingSurrogate d then
              let? r := encodeURIComponent rest' in
              Normal (escape (surrogatePair c d) ++ r)
            else Throw URIError
        | [] => Throw URIError
        end
      else if isTrailingSurrogate c then Throw URIError
      else let? r := encodeURIComponent rest in Normal (escape c ++ r)
  end.

End URI.
Import URI.

(** ** Values and the language operations the script applies to them *)

Module Js.

(** A value produced by [response.json()], or [undefined] (the result of
    reading a property that is not there).  An object is the list of its
    own properties in enumeration order.  A number is a safe integer: the
    embedding holds no fraction, and prints digit for digit. *)
Inductive JsVal : Type :=
| JUndefined
| JNull
| JBool (b : bool)
| JNum (n : Z)
| JStr (s : jsstring)
| JArr (elems : list JsVal)
| JObj (props : list (jsstring * JsVal)).

(** The property names the script reads. *)
Inductive Field : Type :=
| participants | length | description | schedule
| current_participants | max_participants | message | detail.

Definition fieldName (f : Field) : jsstring :=
  match f with
  | participants => lit "participants"
  | length => lit "length"
  | description => lit "description"
  | schedule => lit "schedule"
  | current_participants => lit "current_participants"
  | max_participants => lit "max_participants"
  | message => lit "message"
  | detail => lit "detail"
  end.

Fixpoint ownProperty (props : list (jsstring * JsVal)) (k : jsstring) : option JsVal :=
  match props with
  | [] => None
  | (k', v) :: props' => if JsString.eqb k' k then Some v else ownProperty props' k
  end.

(** [v.f] for one of the names above.  None of them is defined on the
    built-in prototypes, except [length] on strings and arrays. *)
Definition get (v : JsVal) (f : Field) : Completion JsVal :=
  match v with
  | JUndefined | JNull => Throw TypeError
  | JBool _ | JNum _ => Normal JUndefined
  | JStr s =>
      match f with
      | length => Normal (JNum (Z.of_nat (List.length s)))
      | _ => Normal JUndefined
      end
  | JArr l =>
      match f with
      | length => Normal (JNum (Z.of_nat (List.length l)))
      | _ => Normal JUndefined
      end
  | JObj props =>
      match ownProperty props (fieldName f) with
      | Some x => Normal x
      | None => Normal JUndefined
      end
  end.

(** ToBoolean *)
Definition ToBoolean (v : JsVal) : bool :=
  match v with
  | JUndefined | JNull => false
  | JBool b => b
  | JNum n => negb (n =? 0)%Z
  | JStr s => match s with [] => false | _ => true end
  | JArr _ | JObj _ => true
  end.

Fixpoint joinWith (sep : jsstring) (parts : list jsstring) : jsstring :=
  match parts with
  | [] => []
  | [p] => p
  | p :: rest => p ++ sep ++ joinWith sep rest
  end.

(** ToString.  An array prints as its elements joined by commas, [null]
    elements as the empty string.  An object prints through
    [Object.prototype.toString], unless an own property [toString] (never
    callable in a JSON tree) hides it: then OrdinaryToPrimitive finds
    nothing to call and throws. *)
Fixpoint ToString (v : JsVal) : Completion jsstring :=
  match v with
  | JUndefined => Normal (lit "undefined")
  | JNull => Normal (lit "null")
  | JBool true => Normal (lit "true")
  | JBool false => Normal (lit "false")
  | JNum n => Normal (ofZ n)
  | JStr s => Normal s
  | JArr l =>
      let? parts :=
        (fix each (l : list JsVal) : Completion (list jsstring) :=
           match l with
           | [] => Normal []
           | e :: l' =>
               let? a := match e with
                         | JUndefined | JNull => Normal []
                         | _ => ToString e
                         end in
               let? r := each l' in
               Normal (a :: r)
           end) l in
      Normal (joinWith (lit ",") parts)
  | JObj props =>
      match ownProperty props (lit "toString") with
      | Some _ => Throw TypeError
      | None => Normal (lit "[object Object]")
      end
  end.

(** *** The comparison [v > 0]

    Only the sign of ToNumber matters.  For a string it is read off the
    StringNumericLiteral grammar: the literal denotes a number above zero
    when it carries no minus sign and its mathematical value exceeds
    [2^-1075], half of the least positive Number. *)

Fixpoint spanDigits (s : jsstring) : jsstring * jsstring :=
  match s with
  | c :: s' =>
      if isDigit c then let (ds, r) := spanDigits s' in (c :: ds, r)
      else ([], s)
  | [] => ([], [])
  end.

Definition digitsValue (ds : jsstring) : Z :=
  fold_left (fun acc c => acc * 10 + (Z.of_N c - 48))%Z ds 0%Z.

Definition digitValue (c : N) : option N :=
  (if isDigit c then Some (c - 48)
   else if (97 <=? c) && (c <=? 102) then Some (c - 87)
   else if (65 <=? c) && (c <=? 70) then Some (c - 55)
   else None)%N.

(** [0x], [0o] and [0b] literals: all digits below the radix, one not zero. *)
Definition nonDecimalGtZero (radix : N) (ds : jsstring) : bool :=
  match ds with
  | [] => false
  | _ =>
      forallb (fun c => match digitValue c with
                        | Some d => (d <? radix)%N
                        | None => false
                        end) ds
      && existsb (fun c => negb (c =? 48)%N) ds
  end.

Definition exponentOf (s : jsstring) : option Z :=
  match s with
  | [] => Some 0%Z
  | e :: s' =>
      if ((e =? 101) || (e =? 69))%N then
        let '(neg, s'') :=
          match s' with
          | 45%N :: t => (true, t)
          | 43%N :: t => (false, t)
          | _ => (false, s')
          end in
        let (ds, r) := spanDigits s'' in
        match ds, r with
        | _ :: _, [] => Some (if neg then - digitsValue ds else digitsValue ds)%Z
        | _, _ => None
        end
      else None
  end.

Definition decimalGtZero (u : jsstring) : bool :=
  let (ip, r1) := spanDigits u in
  let (fp, r2) :=
    match r1 with
    | 46%N :: r => spanDigits r
    | _ => ([], r1)
    end in
  match ip ++ fp, exponentOf r2 with
  | _ :: _, Some e =>
      let m := digitsValue (ip ++ fp) in
      let k := (e - Z.of_nat (List.length fp))%Z in
      ((0 <? m) && ((0 <=? k) || (10 ^ (- k) <? m * 2 ^ 1075)))%Z
  | _, _ => false
  end.

(** ToNumber(s) > 0 *)
Definition stringGtZero (s : jsstring) : bool :=
  match trim s with
  | [] => false
  | 48%N :: x :: ds =>
      if ((x =? 120) || (x =? 88))%N then nonDecimalGtZero 16 ds
      else if ((x =? 111) || (x =? 79))%N then nonDecimalGtZero 8 ds
      else if ((x =? 98) || (x =? 66))%N then nonDecimalGtZero 2 ds
      else decimalGtZero (48%N :: x :: ds)
  | 45%N :: _ => false
  | 43%N :: u => JsString.eqb u (lit "Infinity") || decimalGtZero u
  | u => JsString.eqb u (lit "Infinity") || decimalGtZero u
  end.

(** [v > 0].  An array or an object is first turned into a primitive, which
    for a JSON tree is the string ToString gives (or its exception). *)
Definition gtZero (v : JsVal) : Completion bool :=
  match v with
  | JUndefined | JNull => Normal false
  | JBool b => Normal b
  | JNum n => Normal (0 <? n)%Z
  | JStr s => Normal (stringGtZero s)
  | JArr _ | JObj _ => let? s := ToString v in Normal (stringGtZero s)
  end.

Fixpoint mapM {A B} (f : A -> Completion B) (l : list A) : Completion (list B) :=
  match l with
  | [] => Normal []
  | a :: l' => let? b := f a in let? r := mapM f l' in Normal (b :: r)
  end.

(** [v.map(f)]: only an array has a callable [map]. *)
Definition callMap {B} (v : JsVal) (f : JsVal -> Completion B) : Completion (list B) :=
  match v with
  | JArr l => mapM f l
  | _ => Throw TypeError
  end.

(** [Object.entries(v)] *)
Definition entries (v : JsVal) : Completion (list (jsstring * JsVal)) :=
  match v with
  | JUndefined | JNull => Throw TypeError
  | JBool _ | JNum _ => Normal []
  | JStr s =>
      Normal (combine (List.map ofNat (seq 0 (List.length s)))
                      (List.map (fun c => JStr [c]) s))
  | JArr l => Normal (combine (List.map ofNat (seq 0 (List.length l))) l)
  | JObj props => Normal props
  end.

End Js.
Import Js.

(** ** The page, the network and the script's effects *)

Module Dom.

Record Element : Type := {
  tagName : jsstring;
  className : jsstring;
  innerHTML : jsstring
}.

(** [document.createElement(tag)] *)
Definition createElement (tag : jsstring) : Element :=
  {| tagName := tag; className := []; innerHTML := [] |}.

Definition setClassName (e : Element) (c : jsstring) : Element :=
  {| tagName := tagName e; className := c; innerHTML := innerHTML e |}.

Definition setInnerHTML (e : Element) (html : jsstring) : Element :=
  {| tagName := tagName e; className := className e; innerHTML := html |}.

(** What the container holds: markup assigned through [innerHTML], or an
    element appended with [appendChild]. *)
Inductive Node : Type :=
| Markup (html : jsstring)
| Child (e : Element).

Inductive Method : Type := GET | POST.

Inductive Event : Type :=
| Fetch (m : Method) (url : jsstring)
| Alert (msg : jsstring)
| ConsoleError (label : jsstring) (error : JsError).

(** The state the script works on: the content of the element bound to
    [activitiesContainer], the value of the input bound to [emailInput],
    and the effects observed so far, oldest first. *)
Record Page : Type := {
  activitiesContainer : list Node;
  emailInput : jsstring;
  events : list Event
}.

Record Response : Type := {
  status : Z;
  body : option JsVal   (* [None]: the body is not JSON *)
}.

(** [response.ok] *)
Definition ok (r : Response) : bool := ((200 <=? status r) && (status r <=? 299))%Z.

(** [response.json()] *)
Definition json (r : Response) : Completion JsVal :=
  match body r with
  | Some v => Normal v
  | None => Throw SyntaxError
  end.

Inductive FetchResult : Type :=
| Rejected
| Resolved (r : Response).

(** The service behind the two endpoints. *)
Definition Server : Type := Method -> jsstring -> FetchResult.

(** Statements: state passing with abrupt completion. *)
Definition M (A : Type) : Type := Page -> Completion A * Page.

Definition ret {A} (a : A) : M A := fun p => (Normal a, p).

Definition bind {A B} (m : M A) (k : A -> M B) : M B :=
  fun p =>
    match m p with
    | (Normal a, p') => k a p'
    | (Throw e, p') => (Throw e, p')
    end.

Definition lift {A} (c : Completion A) : M A := fun p => (c, p).

(** [try { m } catch (error) { h error }] *)
Definition tryCatch {A} (m : M A) (h : JsError -> M A) : M A :=
  fun p =>
    match m p with
    | (Throw e, p') => h e p'
    | r => r
    end.

(** A call of an async function whose promise is dropped: the callee runs,
    a rejection reaches nobody. *)
Definition detached (m : M unit) : M unit :=
  fun p => (Normal tt, snd (m p)).

Definition emit (e : Event) : M unit :=
  fun p =>
    (Normal tt,
     {| activitiesContainer := activitiesContainer p;
        emailInput := emailInput p;
        events := events p ++ [e] |}).

(** [activitiesContainer.innerHTML = html] *)
Definition setContainerHTML (html : jsstring) : M unit :=
  fun p =>
    (Normal tt,
     {| activitiesContainer := match html with [] => [] | _ => [Markup html] end;
        emailInput := emailInput p;
        events := events p |}).

(** [activitiesContainer.appendChild(e)] *)
Definition appendChild (e : Element) : M unit :=
  fun p =>
    (Normal tt,
     {| activitiesContainer := activitiesContainer p ++ [Child e];
        emailInput := emailInput p;
        events := events p |}).

(** [emailInput.value] *)
Definition emailInputValue : M jsstring := fun p => (Normal (emailInput p), p).

Definition alert (msg : jsstring) : M unit := emit (Alert msg).

Definition consoleError (label : jsstring) (error : JsError) : M unit :=
  emit (ConsoleError label error).

(** [await fetch(url, { method })] *)
Definition fetch (server : Server) (m : Method) (url : jsstring) : M Response :=
  bind (emit (Fetch m url))
       (fun _ => match server m url with
                 | Resolved r => ret r
                 | Rejected => lift (Throw NetworkError)
                 end).

End Dom.
Import Dom.

Notation "x <- m ;; k" := (bind m (fun x => k))
  (at level 61, m at next level, right associativity).
Notation "m ;; k" := (bind m (fun _ => k))
  (at level 61, right associativity).

(** ** The script *)

Definition indent (n : nat) : jsstring := repeat 32%N n.

(** [<tag class="c">] *)
Definition openTag (tag c : string) : jsstring :=
  lit "<" ++ lit tag ++ lit " class=" ++ dquote ++ lit c ++ dquote ++ lit ">".

Definition errorLoading : jsstring :=
  lit "<p>Error loading activities. Please try again later.</p>".

Definition noParticipants : jsstring :=
  openTag "p" "no-participants" ++ lit "No participants yet</p>".

(** The template literal of the participants list, [items] standing for
    [details.participants.map(...).join('')]. *)
Definition participantsListHTML (items : jsstring) : jsstring :=
  openTag "ul" "participants-list" ++ newline
  ++ indent 16 ++ items ++ newline
  ++ indent 15 ++ lit "</ul>".

(** [email => `<li>${email}</li>`] *)
Definition listItem (email : JsVal) : Completion jsstring :=
  let? e := ToString email in
  Normal (lit "<li>" ++ e ++ lit "</li>").

(** The expression bound to [participantsList] (lines 24-28). *)
Definition participantsList (details : JsVal) : Completion jsstring :=
  let? p := get details participants in
  let? nonEmpty :=
    if ToBoolean p then
      let? p' := get details participants in
      let? n := get p' length in
      gtZero n
    else Normal false in
  if nonEmpty then
    let? p'' := get details participants in
    let? items := callMap p'' listItem in
    Normal (participantsListHTML (joinWith [] items))
  else Normal noParticipants.

(** [details.current_participants || details.participants.length] (line 34) *)
Definition capacityCount (details : JsVal) : Completion JsVal :=
  let? current := get details current_participants in
  if ToBoolean current then Normal current
  else
    let? p := get details participants in
    get p length.

Definition h2Line (name : jsstring) : jsstring :=
  lit "<h2>" ++ name ++ lit "</h2>".

Definition descriptionLine (d : jsstring) : jsstring :=
  openTag "p" "description" ++ d ++ lit "</p>".

Definition scheduleLine (s : jsstring) : jsstring :=
  openTag "p" "schedule" ++ lit "<strong>Schedule:</strong> " ++ s ++ lit "</p>".

Definition capacityLine (count maxp : jsstring) : jsstring :=
  openTag "p" "capacity" ++ lit "<strong>Capacity:</strong> "
  ++ count ++ lit "/" ++ maxp ++ lit "</p>".

Definition participantsSection (plist : jsstring) : jsstring :=
  openTag "div" "participants-section" ++ newline
  ++ indent 16 ++ lit "<h3>Participants:</h3>" ++ newline
  ++ indent 16 ++ plist ++ newline
  ++ indent 12 ++ lit "</div>".

Definition signUpButton (name : jsstring) : jsstring :=
  lit "<button onclick=" ++ dquote ++ lit "signUp('" ++ name ++ lit "')"
  ++ dquote ++ lit ">Sign Up</button>".

(** The template literal assigned to [card.innerHTML] (lines 30-40), its
    substitutions already converted to strings. *)
Definition cardHTML (name d s count maxp plist : jsstring) : jsstring :=
  newline
  ++ indent 12 ++ h2Line name ++ newline
  ++ indent 12 ++ descriptionLine d ++ newline
  ++ indent 12 ++ scheduleLine s ++ newline
  ++ indent 12 ++ capacityLine count maxp ++ newline
  ++ indent 12 ++ participantsSection plist ++ newline
  ++ indent 12 ++ signUpButton name ++ newline
  ++ indent 8.

(** The body of the loop of [displayActivities], up to [appendChild]. *)
Definition renderCard (name : jsstring) (details : JsVal) : Completion Element :=
  let card := createElement (lit "div") in
  let card := setClassName card (lit "activity-card") in
  let? plist := participantsList details in
  let? d := (let? v := get details description in ToString v) in
  let? s := (let? v := get details schedule in ToString v) in
  let? count := (let? v := capacityCount details in ToString v) in
  let? maxp := (let? v := get details max_participants in ToString v) in
  Normal (setInnerHTML card (cardHTML name d s count maxp plist)).

(** [for (const [name, details] of es) { ... }] *)
Fixpoint forEntries (es : list (jsstring * JsVal)) : M unit :=
  match es with
  | [] => ret tt
  | (name, details) :: es' =>
      card <- lift (renderCard name details) ;;
      appendChild card ;;
      forEntries es'
  end.

Definition displayActivities (activities : JsVal) : M unit :=
  setContainerHTML [] ;;
  es <- lift (entries activities) ;;
  forEntries es.

Definition loadActivities (server : Server) : M unit :=
  tryCatch
    (response <- fetch server GET (lit "/activities") ;;
     activities <- lift (json response) ;;
     displayActivities activities)
    (fun error =>
       consoleError (lit "Error loading activities:") error ;;
       setContainerHTML errorLoading).

(** The URL of the sign-up request (line 61). *)
Definition signUpURL (activityName email : jsstring) : Completion jsstring :=
  let? a := encodeURIComponent activityName in
  let? e := encodeURIComponent email in
  Normal (lit "/activities/" ++ a ++ lit "/signup?email=" ++ e).

Definition signUp (server : Server) (activityName : jsstring) : M unit :=
  value <- emailInputValue ;;
  let email := trim value in
  match email with
  | [] => alert (lit "Please enter your email address")
  | _ =>
      if negb (includes email (lit "@")) then
        alert (lit "Please enter a valid email address")
      else
        tryCatch
          (url <- lift (signUpURL activityName email) ;;
           response <- fetch server POST url ;;
           if ok response then
             result <- lift (json response) ;;
             msg <- lift (let? m := get result message in ToString m) ;;
             alert msg ;;
             detached (loadActivities server)
           else
             error <- lift (json response) ;;
             msg <- lift (let? d := get error detail in ToString d) ;;
             alert (lit "Error: " ++ msg))
          (fun error =>
             consoleError (lit "Error signing up:") error ;;
             alert (lit "Error signing up. Please try again later."))
  end.

(** ** Vocabulary of the properties *)

(** [p] with [es] appended to the effects observed. *)
Definition observe (p : Page) (es : list Event) : Page :=
  {| activitiesContainer := activitiesContainer p;
     emailInput := emailInput p;
     events := events p ++ es |}.

(** [p] with the container holding [nodes] and [es] appended to the effects. *)
Definition repaint (p : Page) (nodes : list Node) (es : list Event) : Page :=
  {| activitiesContainer := nodes;
     emailInput := emailInput p;
     events := events p ++ es |}.

Definition isFetch (e : Event) : bool :=
  match e with Fetch _ _ => true | _ => false end.

(** What the [catch] block of [signUp] does with the exception [e]. *)
Definition signUpFailure (e : JsError) : list Event :=
  [ConsoleError (lit "Error signing up:") e;
   Alert (lit "Error signing up. Please try again later.")].

(** The request [loadActivities] issues. *)
Definition loadRequest : Event := Fetch GET (lit "/activities").

(** What the [catch] block of [loadActivities] logs for the exception [e]. *)
Definition loadFailure (e : JsError) : list Event :=
  [ConsoleError (lit "Error loading activities:") e].

(** The cards the loop appends before the first entry that throws. *)
Fixpoint rendered (es : list (jsstring * JsVal)) : list Element :=
  match es with
  | [] => []
  | (name, details) :: es' =>
      match renderCard name details with
      | Normal card => card :: rendered es'
      | Throw _ => []
      end
  end.

(** The exception that stops the loop, if any. *)
Fixpoint firstFailure (es : list (jsstring * JsVal)) : option JsError :=
  match es with
  | [] => None
  | (name, details) :: es' =>
      match renderCard name details with
      | Normal _ => firstFailure es'
      | Throw e => Some e
      end
  end.

Definition completion (failure : option JsError) : Completion unit :=
  match failure with
  | None => Normal tt
  | Some e => Throw e
  end.

(** The outcome of [displayActivities] as one completion. *)
Definition displayOutcome (activities : JsVal) : Completion unit :=
  match entries activities with
  | Normal es => completion (firstFailure es)
  | Throw e => Throw e
  end.

(** The cards [displayActivities] leaves in the container. *)
Definition cardsOf (activities : JsVal) : list Element :=
  match entries activities with
  | Normal es => rendered es
  | Throw _ => []
  end.

(** ** The data model of the specification *)

Definition isString (v : JsVal) : bool :=
  match v with JStr _ => true | _ => false end.

(** [Number.isSafeInteger]: the integers JavaScript holds and prints
    exactly. *)
Definition isSafeInteger (n : Z) : bool :=
  ((- 9007199254740992 <? n) && (n <? 9007199254740992))%Z.

(** The lengths an array can have. *)
Definition isArrayLength (n : nat) : bool := (Z.of_nat n <? 4294967296)%Z.

(** An Activity record: [description] and [schedule] strings,
    [max_participants] a safe integer, [participants] an array of strings,
    [current_participants] a safe integer or absent. *)
Definition isActivity (details : JsVal) : bool :=
  match details with
  | JObj props =>
      match ownProperty props (lit "description"),
            ownProperty props (lit "schedule"),
            ownProperty props (lit "max_participants"),
            ownProperty props (lit "participants") with
      | Some (JStr _), Some (JStr _), Some (JNum m), Some (JArr emails) =>
          isSafeInteger m
          && isArrayLength (List.length emails)
          && forallb isString emails
          && match ownProperty props (lit "current_participants") with
             | None => true
             | Some (JNum n) => isSafeInteger n
             | Some _ => false
             end
      | _, _, _, _ => false
      end
  | _ => false
  end.

(** A card shows an entry of the mapping: it is a [div] of class
    [activity-card] whose markup holds the heading with the name, the
    paragraph with the description and the paragraph with the schedule of
    the record, written out here character by character (34 is the double
    quote). *)
Definition shows (entry : jsstring * JsVal) (card : Element) : Prop :=
  tagName card = lit "div"
  /\ className card = lit "activity-card"
  /\ exists d s,
       get (snd entry) description = Normal (JStr d)
       /\ get (snd entry) schedule = Normal (JStr s)
       /\ includes (innerHTML card)
            (lit "<h2>" ++ fst entry ++ lit "</h2>") = true
       /\ includes (innerHTML card)
            (lit "<p class=" ++ [34%N] ++ lit "description" ++ [34%N] ++ lit ">"
             ++ d ++ lit "</p>") = true
       /\ includes (innerHTML card)
            (lit "<p class=" ++ [34%N] ++ lit "schedule" ++ [34%N]
             ++ lit "><strong>Schedule:</strong> " ++ s ++ lit "</p>") = true.

(** A completion that can only throw [TypeError]. *)
Definition onlyTypeError {A} (c : Completion A) : Prop :=
  forall e, c = Throw e -> e = TypeError.

(** ** Percent-encoding, as a reader of the URL sees it *)

(** [String.prototype.isWellFormed]: 16-bit code units, every surrogate
    paired. *)
Fixpoint isWellFormed (s : jsstring) : bool :=
  match s with
  | [] => true
  | c :: rest =>
      (c <? 65536)%N &&
      if isLeadingSurrogate c then
        match rest with
        | d :: rest' => isTrailingSurrogate d && isWellFormed rest'
        | [] => false
        end
      else negb (isTrailingSurrogate c) && isWellFormed rest
  end.

(** The code points of a well-formed string. *)
Fixpoint codePoints (s : jsstring) : list N :=
  match s with
  | [] => []
  | c :: rest =>
      if isLeadingSurrogate c then
        match rest with
        | d :: rest' => surrogatePair c d :: codePoints rest'
        | [] => [c]
        end
      else c :: codePoints rest
  end.

(** The UTF-8 octets of a string. *)
Definition utf8Octets (s : jsstring) : list N := flat_map utf8 (codePoints s).

(** Reading a percent-encoded component back into octets: [%XX] is the
    octet with that hexadecimal value, any other character stands for
    itself. *)
Fixpoint percentDecode (s : jsstring) : option (list N) :=
  match s with
  | [] => Some []
  | c :: rest =>
      if (c =? 37)%N then
        match rest with
        | h :: l :: rest' =>
            match digitValue h, digitValue l, percentDecode rest' with
            | Some a, Some b, Some r => Some ((16 * a + b)%N :: r)
            | _, _, _ => None
            end
        | _ => None
        end
      else option_map (cons c) (percentDecode rest)
  end.

(** The characters of an encoded component: unreserved ones and [%]. *)
Definition isComponentChar (c : N) : bool := isUnreserved c || (c =? 37)%N.

Definition isPost (e : Event) : bool :=
  match e with Fetch POST _ => true | _ => false end.

(** ** Sample data *)

Definition emptyPage (email : string) : Page :=
  {| activitiesContainer := []; emailInput := lit email; events := [] |}.

(** The example of the specification: one activity with one participant. *)
Definition chessClubEntries : list (jsstring * JsVal) :=
  [(lit "Chess Club",
    JObj [(lit "description", JStr (lit "Learn strategies"));
          (lit "schedule", JStr (lit "Mon"));
          (lit "max_participants", JNum 10);
          (lit "participants", JArr [JStr (lit "a@x.com")])])].

Definition chessClub : JsVal := JObj chessClubEntries.

(** An activity with one participant whose [current_participants] is 0. *)
Definition staleCount : JsVal :=
  JObj [(lit "description", JStr (lit "Learn strategies"));
        (lit "schedule", JStr (lit "Mon"));
        (lit "max_participants", JNum 10);
        (lit "participants", JArr [JStr (lit "a@x.com")]);
        (lit "current_participants", JNum 0)].

(** An activity nobody has joined yet. *)
Definition artClub : JsVal :=
  JObj [(lit "description", JStr (lit "Paint and draw"));
        (lit "schedule", JStr (lit "Tue"));
        (lit "max_participants", JNum 5);
        (lit "participants", JArr [])].

(** A record without [participants] and without [current_participants]. *)
Definition noRoster : list (jsstring * JsVal) :=
  [(lit "description", JStr (lit "Paint and draw"));
   (lit "schedule", JStr (lit "Tue"));
   (lit "max_participants", JNum 5)].

(** A service that answers every request with the given status and body. *)
Definition always (st : Z) (b : option JsVal) : Server :=
  fun _ _ => Resolved {| status := st; body := b |}.

Definition unreachable : Server := fun _ _ => Rejected.

(** A service that answers the sign-up with [post] and the list with [list]. *)
Definition service (post list : Response) : Server :=
  fun m _ =>
    match m with
    | POST => Resolved post
    | GET => Resolved list
    end.

(** ** Summaries of the two operations *)

(** What [loadActivities] leaves in the container and adds to the effects,
    read off the answer of the service. *)
Definition loadResult (server : Server) : list Node * list Event :=
  match server GET (lit "/activities") with
  | Rejected => ([Markup errorLoading], loadRequest :: loadFailure NetworkError)
  | Resolved r =>
      match body r with
      | None => ([Markup errorLoading], loadRequest :: loadFailure SyntaxError)
      | Some b =>
          match displayOutcome b with
          | Normal _ => (List.map Child (cardsOf b), [loadRequest])
          | Throw e => ([Markup errorLoading], loadRequest :: loadFailure e)
          end
      end
  end.

(** What [signUp] does for a given value of the e-mail field, already
    trimmed: the new content of the container, if it is replaced, and the
    effects added. *)
Definition signUpEffects (server : Server) (activityName email : jsstring)
  : option (list Node) * list Event :=
  match email with
  | [] => (None, [Alert (lit "Please enter your email address")])
  | _ =>
      if negb (includes email (lit "@")) then
        (None, [Alert (lit "Please enter a valid email address")])
      else
        match signUpURL activityName email with
        | Throw e => (None, signUpFailure e)
        | Normal url =>
            match server POST url with
            | Rejected => (None, Fetch POST url :: signUpFailure NetworkError)
            | Resolved r =>
                match body r with
                | None => (None, Fetch POST url :: signUpFailure SyntaxError)
                | Some b =>
                    if ok r then
                      match (let? m := get b message in ToString m) with
                      | Normal msg =>
                          (Some (fst (loadResult server)),
                           [Fetch POST url; Alert msg] ++ snd (loadResult server))
                      | Throw e => (None, Fetch POST url :: signUpFailure e)
                      end
                    else
                      match (let? d := get b detail in ToString d) with
                      | Normal msg => (None, [Fetch POST url; Alert (lit "Error: " ++ msg)])
                      | Throw e => (None, Fetch POST url :: signUpFailure e)
                      end
                end
            end
        end
  end.

(** [p] with the e-mail field holding [value]. *)
Definition withEmail (p : Page) (value : jsstring) : Page :=
  {| activitiesContainer := activitiesContainer p;
     emailInput := value;
     events := events p |}.

Definition isGet (e : Event) : bool :=
  match e with Fetch GET _ => true | _ => false end.

Definition isAlert (e : Event) : bool :=
  match e with Alert _ => true | _ => false end.

(** ** Reading a component back into a string *)

(** The code points of a sequence of UTF-8 octets; the length of each
    sequence is read off its first octet. *)
Fixpoint decodeUtf8 (bs : list N) : option (list N) :=
  match bs with
  | [] => Some []
  | b0 :: r0 =>
      if (b0 <? 128)%N then option_map (cons b0) (decodeUtf8 r0)
      else if (b0 <? 224)%N then
        match r0 with
        | b1 :: r1 =>
            option_map (cons ((b0 - 192) * 64 + (b1 - 128))%N) (decodeUtf8 r1)
        | _ => None
        end
      else if (b0 <? 240)%N then
        match r0 with
        | b1 :: b2 :: r2 =>
            option_map (cons ((b0 - 224) * 4096 + (b1 - 128) * 64 + (b2 - 128))%N)
                       (decodeUtf8 r2)
        | _ => None
        end
      else
        match r0 with
        | b1 :: b2 :: b3 :: r3 =>
            option_map
              (cons ((b0 - 240) * 262144 + (b1 - 128) * 4096
                     + (b2 - 128) * 64 + (b3 - 128))%N)
              (decodeUtf8 r3)
        | _ => None
        end
  end.

(** The UTF-16 code units of a code point. *)
Definition toUTF16 (cp : N) : jsstring :=
  (if cp <? 65536 then [cp]
   else [55296 + (cp - 65536) / 1024; 56320 + (cp - 65536) mod 1024])%N.

(** Percent-decoding followed by UTF-8 decoding: what the receiver of the
    request does with a path segment or a query value. *)
Definition decodeComponent (a : jsstring) : option jsstring :=
  match percentDecode a with
  | Some bs =>
      match decodeUtf8 bs with
      | Some cps => Some (flat_map toUTF16 cps)
      | None => None
      end
  | None => None
  end.


(** * Properties *)

Ltac unfold_m :=
  unfold bind, ret, lift, tryCatch, detached, alert, consoleError, emit,
    emailInputValue, fetch, setContainerHTML, appendChild in *.

(** ** Validation of the e-mail field *)

Section Validation.

Variable server : Server.
Variable activityName : jsstring.

Lemma signUp_empty_email (p : Page) :
  trim (emailInput p) = [] ->
  signUp server activityName p =
  (Normal tt, observe p [Alert (lit "Please enter your email address")]).
Proof.
  intros H. unfold signUp. unfold_m. rewrite H. reflexivity.
Qed.

Lemma signUp_no_at (p : Page) :
  trim (emailInput p) <> [] ->
  includes (trim (emailInput p)) (lit "@") = false ->
  signUp server activityName p =
  (Normal tt, observe p [Alert (lit "Please enter a valid email address")]).
Proof.
  intros Hne Hat. unfold signUp. unfold_m.
  destruct (trim (emailInput p)) as [|c email] eqn:E; [congruence|].
  rewrite Hat. reflexivity.
Qed.

(** A valid e-mail reaches the [try] block. *)
Lemma signUp_valid (p : Page) :
  trim (emailInput p) <> [] ->
  includes (trim (emailInput p)) (lit "@") = true ->
  signUp server activityName p =
  tryCatch
    (url <- lift (signUpURL activityName (trim (emailInput p))) ;;
     response <- fetch server POST url ;;
     if ok response then
       result <- lift (json response) ;;
       msg <- lift (let? m := get result message in ToString m) ;;
       alert msg ;;
       detached (loadActivities server)
     else
       error <- lift (json response) ;;
       msg <- lift (let? d := get error detail in ToString d) ;;
       alert (lit "Error: " ++ msg))
    (fun error =>
       consoleError (lit "Error signing up:") error ;;
       alert (lit "Error signing up. Please try again later.")) p.
Proof.
  intros Hne Hat. unfold signUp at 1.
  unfold bind at 1. unfold emailInputValue at 1.
  destruct (trim (emailInput p)) as [|c email] eqn:E; [congruence|].
  rewrite Hat. reflexivity.
Qed.

End Validation.

(** C5.  [signUp] validates the e-mail field in order and stops at the first
    failure: an e-mail that is empty after trimming gives the first alert,
    a non-empty one without [@] gives the second alert, and in both cases
    the alert is the only effect: no request is issued and the container
    is left as it was. *)
Theorem signUp_validates_in_order (server : Server) (activityName : jsstring) (p : Page) :
  (trim (emailInput p) = [] ->
   signUp server activityName p =
   (Normal tt, observe p [Alert (lit "Please enter your email address")]))
  /\
  (trim (emailInput p) <> [] ->
   includes (trim (emailInput p)) (lit "@") = false ->
   signUp server activityName p =
   (Normal tt, observe p [Alert (lit "Please enter a valid email address")])).
Proof.
  split.
  - apply signUp_empty_email.
  - apply signUp_no_at.
Qed.

(** ** Running statements *)

Section Running.

Context {A B : Type}.

Lemma bind_normal (m : M A) (k : A -> M B) (p p' : Page) (a : A) (r : Completion B * Page) :
  m p = (Normal a, p') -> k a p' = r -> bind m k p = r.
Proof. intros Hm Hk. unfold bind. now rewrite Hm. Qed.

Lemma bind_throw (m : M A) (k : A -> M B) (p p' : Page) (e : JsError) :
  m p = (Throw e, p') -> bind m k p = (Throw e, p').
Proof. intros Hm. unfold bind. now rewrite Hm. Qed.

Lemma tryCatch_normal (m : M A) (h : JsError -> M A) (p p' : Page) (a : A) :
  m p = (Normal a, p') -> tryCatch m h p = (Normal a, p').
Proof. intros Hm. unfold tryCatch. now rewrite Hm. Qed.

Lemma tryCatch_throw (m : M A) (h : JsError -> M A) (p p' : Page) (e : JsError)
      (r : Completion A * Page) :
  m p = (Throw e, p') -> h e p' = r -> tryCatch m h p = r.
Proof. intros Hm Hh. unfold tryCatch. now rewrite Hm. Qed.

End Running.

Lemma fetch_resolved (server : Server) (m : Method) (url : jsstring) (r : Response) (p : Page) :
  server m url = Resolved r ->
  fetch server m url p = (Normal r, repaint p (activitiesContainer p) [Fetch m url]).
Proof. intros Hs. unfold fetch, bind, emit. now rewrite Hs. Qed.

Lemma fetch_rejected (server : Server) (m : Method) (url : jsstring) (p : Page) :
  server m url = Rejected ->
  fetch server m url p = (Throw NetworkError, repaint p (activitiesContainer p) [Fetch m url]).
Proof. intros Hs. unfold fetch, bind, emit. now rewrite Hs. Qed.

Lemma repaint_repaint (p : Page) (ns ns' : list Node) (es es' : list Event) :
  repaint (repaint p ns es) ns' es' = repaint p ns' (es ++ es').
Proof. unfold repaint; simpl. now rewrite app_assoc. Qed.

Lemma observe_repaint (p : Page) (es : list Event) :
  observe p es = repaint p (activitiesContainer p) es.
Proof. reflexivity. Qed.

(** ** The sign-up request and its outcomes *)

Lemma observe_observe (p : Page) (es es' : list Event) :
  observe (observe p es) es' = observe p (es ++ es').
Proof.
  unfold observe; simpl. now rewrite app_assoc.
Qed.

Lemma emit_observe (e : Event) (p : Page) :
  emit e p = (Normal tt, observe p [e]).
Proof. reflexivity. Qed.

Section SignUpOutcomes.

Variable server : Server.
Variable activityName : jsstring.
Variable p : Page.

Hypothesis email_not_empty : trim (emailInput p) <> [].
Hypothesis email_has_at : includes (trim (emailInput p)) (lit "@") = true.

Lemma signUp_url_throws (e : JsError) :
  signUpURL activityName (trim (emailInput p)) = Throw e ->
  signUp server activityName p = (Normal tt, observe p (signUpFailure e)).
Proof.
  intros Hu. rewrite signUp_valid by assumption.
  unfold tryCatch, bind at 1, lift at 1. rewrite Hu.
  unfold bind, consoleError, alert. rewrite !emit_observe, observe_observe.
  reflexivity.
Qed.

Variable url : jsstring.
Hypothesis url_ok : signUpURL activityName (trim (emailInput p)) = Normal url.

Lemma signUp_fetch_rejected :
  server POST url = Rejected ->
  signUp server activityName p =
  (Normal tt, observe p (Fetch POST url :: signUpFailure NetworkError)).
Proof.
  intros Hs. rewrite signUp_valid by assumption.
  unfold tryCatch, bind at 1, lift at 1. rewrite url_ok.
  unfold bind at 1, fetch, bind at 1. rewrite emit_observe, Hs.
  unfold lift, bind, consoleError, alert.
  rewrite !emit_observe, !observe_observe. reflexivity.
Qed.

Lemma signUp_body_not_json (st : Z) :
  server POST url = Resolved {| status := st; body := None |} ->
  signUp server activityName p =
  (Normal tt, observe p (Fetch POST url :: signUpFailure SyntaxError)).
Proof.
  intros Hs. rewrite signUp_valid by assumption.
  unfold tryCatch, bind at 1, lift at 1. rewrite url_ok.
  unfold bind at 1, fetch, bind at 1. rewrite emit_observe, Hs.
  unfold ret.
  destruct (ok {| status := st; body := None |});
    unfold bind, lift, json, consoleError, alert; cbn [body];
    rewrite !emit_observe, !observe_observe; reflexivity.
Qed.

(** A response that is not 2xx and carries JSON: the alert shows the detail
    behind the prefix [Error: ], or the generic failure when reading or
    printing the detail throws. *)
Lemma signUp_not_ok (r : Response) (b : JsVal) :
  server POST url = Resolved r ->
  ok r = false ->
  body r = Some b ->
  signUp server activityName p =
  (Normal tt,
   observe p
     (Fetch POST url ::
      match (let? d := get b detail in ToString d) with
      | Normal msg => [Alert (lit "Error: " ++ msg)]
      | Throw e => signUpFailure e
      end)).
Proof.
  intros Hs Hok Hb. rewrite signUp_valid by assumption.
  unfold tryCatch, bind at 1, lift at 1. rewrite url_ok.
  unfold bind at 1, fetch, bind at 1. rewrite emit_observe, Hs.
  unfold ret. rewrite Hok.
  unfold bind at 1, lift at 1, json. rewrite Hb.
  unfold bind at 1, lift at 1.
  destruct (let? d := get b detail in ToString d) as [msg|e].
  - unfold alert. rewrite emit_observe, observe_observe. reflexivity.
  - unfold bind, consoleError, alert.
    rewrite !emit_observe, !observe_observe. reflexivity.
Qed.

End SignUpOutcomes.

(** ** Rendering *)

Lemma repaint_nil (p : Page) :
  repaint p (activitiesContainer p) [] = p.
Proof.
  destruct p; unfold repaint; simpl. now rewrite app_nil_r.
Qed.

Lemma forEntries_run (es : list (jsstring * JsVal)) (p : Page) :
  forEntries es p =
  (completion (firstFailure es),
   repaint p (activitiesContainer p ++ List.map Child (rendered es)) []).
Proof.
  revert p. induction es as [|[name details] es IH]; intros p; simpl.
  - unfold ret. now rewrite app_nil_r, repaint_nil.
  - unfold bind at 1, lift at 1.
    destruct (renderCard name details) as [card|e]; simpl.
    + unfold bind at 1, appendChild at 1. rewrite IH.
      unfold repaint; simpl. now rewrite <- app_assoc.
    + now rewrite app_nil_r, repaint_nil.
Qed.

(** The container is emptied before anything can throw, and then holds
    exactly the cards rendered. *)
Lemma displayActivities_run (activities : JsVal) (p : Page) :
  displayActivities activities p =
  (displayOutcome activities, repaint p (List.map Child (cardsOf activities)) []).
Proof.
  unfold displayActivities, displayOutcome, cardsOf.
  eapply bind_normal; [reflexivity|].
  destruct (entries activities) as [es|e].
  - eapply bind_normal; [reflexivity|].
    rewrite forEntries_run. reflexivity.
  - erewrite bind_throw by reflexivity.
    unfold repaint; simpl. now rewrite app_nil_r.
Qed.

(** ** Loading *)

Section LoadOutcomes.

Variable server : Server.
Variable p : Page.

Lemma loadActivities_caught (e : JsError) (q : Page) :
  (consoleError (lit "Error loading activities:") e ;;
   setContainerHTML errorLoading) q =
  (Normal tt, repaint q [Markup errorLoading] (loadFailure e)).
Proof. reflexivity. Qed.

Lemma loadActivities_rejected :
  server GET (lit "/activities") = Rejected ->
  loadActivities server p =
  (Normal tt, repaint p [Markup errorLoading] (loadRequest :: loadFailure NetworkError)).
Proof.
  intros Hs. unfold loadActivities.
  eapply tryCatch_throw.
  - eapply bind_throw. apply fetch_rejected, Hs.
  - rewrite loadActivities_caught, repaint_repaint. reflexivity.
Qed.

Lemma loadActivities_not_json (st : Z) :
  server GET (lit "/activities") = Resolved {| status := st; body := None |} ->
  loadActivities server p =
  (Normal tt, repaint p [Markup errorLoading] (loadRequest :: loadFailure SyntaxError)).
Proof.
  intros Hs. unfold loadActivities.
  eapply tryCatch_throw.
  - eapply bind_normal; [apply fetch_resolved, Hs|].
    eapply bind_throw. reflexivity.
  - rewrite loadActivities_caught, repaint_repaint. reflexivity.
Qed.

(** Whatever the status, a JSON body is handed to [displayActivities]. *)
Lemma loadActivities_json (st : Z) (b : JsVal) :
  server GET (lit "/activities") = Resolved {| status := st; body := Some b |} ->
  loadActivities server p =
  match displayOutcome b with
  | Normal _ => (Normal tt, repaint p (List.map Child (cardsOf b)) [loadRequest])
  | Throw e => (Normal tt, repaint p [Markup errorLoading] (loadRequest :: loadFailure e))
  end.
Proof.
  intros Hs. unfold loadActivities.
  pose proof (displayActivities_run b) as Hd.
  destruct (displayOutcome b) as [[]|e].
  - erewrite tryCatch_normal; [reflexivity|].
    eapply bind_normal; [apply fetch_resolved, Hs|].
    eapply bind_normal; [reflexivity|].
    rewrite Hd, repaint_repaint. reflexivity.
  - eapply tryCatch_throw.
    + eapply bind_normal; [apply fetch_resolved, Hs|].
      eapply bind_normal; [reflexivity|].
      rewrite Hd. reflexivity.
    + rewrite loadActivities_caught, !repaint_repaint. reflexivity.
Qed.

End LoadOutcomes.

(** [loadActivities] always completes normally: it issues its request, and
    then either shows cards or logs the failure and shows the error text. *)
Lemma loadActivities_total (server : Server) (p : Page) :
  exists nodes rest,
    loadActivities server p = (Normal tt, repaint p nodes (loadRequest :: rest))
    /\ (rest = [] \/ exists e, rest = loadFailure e /\ nodes = [Markup errorLoading]).
Proof.
  destruct (server GET (lit "/activities")) as [|[st [b|]]] eqn:Hs.
  - rewrite (loadActivities_rejected _ _ Hs).
    do 2 eexists; split; [reflexivity | right; eauto].
  - rewrite (loadActivities_json _ _ Hs).
    destruct (displayOutcome b);
      do 2 eexists; split; try reflexivity; [left | right]; eauto.
  - rewrite (loadActivities_not_json _ _ Hs).
    do 2 eexists; split; [reflexivity | right; eauto].
Qed.

Lemma signUp_caught (e : JsError) (q : Page) :
  (consoleError (lit "Error signing up:") e ;;
   alert (lit "Error signing up. Please try again later.")) q =
  (Normal tt, observe q (signUpFailure e)).
Proof.
  unfold bind, consoleError, alert, emit, observe, signUpFailure; simpl.
  now rewrite <- app_assoc.
Qed.

Section SignUpAccepted.

Variable server : Server.
Variable activityName : jsstring.
Variable p : Page.
Variable url : jsstring.

Hypothesis email_not_empty : trim (emailInput p) <> [].
Hypothesis email_has_at : includes (trim (emailInput p)) (lit "@") = true.
Hypothesis url_ok : signUpURL activityName (trim (emailInput p)) = Normal url.

(** A 2xx response that carries JSON: the alert shows the message and the
    list is loaded again, or the generic failure is reported when reading
    or printing the message throws. *)
Lemma signUp_ok (r : Response) (b : JsVal) :
  server POST url = Resolved r ->
  ok r = true ->
  body r = Some b ->
  signUp server activityName p =
  (Normal tt,
   match (let? m := get b message in ToString m) with
   | Normal msg => snd (loadActivities server (observe p [Fetch POST url; Alert msg]))
   | Throw e => observe p (Fetch POST url :: signUpFailure e)
   end).
Proof.
  intros Hs Hok Hb. rewrite signUp_valid by assumption.
  destruct (let? m := get b message in ToString m) as [msg|e] eqn:Hm.
  - erewrite tryCatch_normal; [reflexivity|].
    eapply bind_normal; [unfold lift; rewrite url_ok; reflexivity|].
    eapply bind_normal; [apply fetch_resolved, Hs|].
    rewrite Hok.
    eapply bind_normal; [unfold lift, json; rewrite Hb; reflexivity|].
    eapply bind_normal; [unfold lift; rewrite Hm; reflexivity|].
    eapply bind_normal; [reflexivity|].
    unfold detached. f_equal. f_equal.
    unfold repaint, observe; simpl. now rewrite <- app_assoc.
  - eapply tryCatch_throw.
    + eapply bind_normal; [unfold lift; rewrite url_ok; reflexivity|].
      eapply bind_normal; [apply fetch_resolved, Hs|].
      rewrite Hok.
      eapply bind_normal; [unfold lift, json; rewrite Hb; reflexivity|].
      eapply bind_throw. unfold lift. rewrite Hm. reflexivity.
    + rewrite signUp_caught.
      unfold repaint, observe, signUpFailure; simpl.
      rewrite <- ?app_assoc. reflexivity.
Qed.

End SignUpAccepted.

(** ** Failures of the sign-up request *)

(** C10.  A 2xx answer to the sign-up whose body is not JSON ends in the
    [catch] block: the parse error is logged, the generic message is
    alerted, no confirmation is shown and the list is not loaded again. *)
Theorem signUp_2xx_body_not_json
    (server : Server) (activityName : jsstring) (p : Page) (url : jsstring) (r : Response) :
  trim (emailInput p) <> [] ->
  includes (trim (emailInput p)) (lit "@") = true ->
  signUpURL activityName (trim (emailInput p)) = Normal url ->
  server POST url = Resolved r ->
  ok r = true ->
  body r = None ->
  signUp server activityName p =
  (Normal tt,
   observe p [Fetch POST url;
              ConsoleError (lit "Error signing up:") SyntaxError;
              Alert (lit "Error signing up. Please try again later.")]).
Proof.
  intros Hne Hat Hurl Hs _ Hb. destruct r as [st b]; simpl in Hb; subst b.
  now rewrite (@signUp_body_not_json server activityName p Hne Hat url Hurl st Hs).
Qed.

Lemma signUp_2xx_body_not_json_witness :
  signUp (always 200 None) (lit "Chess Club") (emptyPage " a@x.com ") =
  (Normal tt,
   observe (emptyPage " a@x.com ")
     [Fetch POST (lit "/activities/Chess%20Club/signup?email=a%40x.com");
      ConsoleError (lit "Error signing up:") SyntaxError;
      Alert (lit "Error signing up. Please try again later.")]).
Proof.
  apply (@signUp_2xx_body_not_json (always 200 None) (lit "Chess Club")
           (emptyPage " a@x.com ")
           (lit "/activities/Chess%20Club/signup?email=a%40x.com")
           {| status := 200; body := None |}).
  - discriminate.
  - reflexivity.
  - reflexivity.
  - reflexivity.
  - reflexivity.
  - reflexivity.
Defined.

(** The claim of C3 fails as stated: the alert carries the prefix
    [Error: ] in front of the detail. *)
Lemma signUp_detail_not_verbatim :
  let answer := {| status := 400;
                   body := Some (JObj [(lit "detail", JStr (lit "Already signed up"))]) |} in
  exists shown,
    snd (signUp (service answer answer) (lit "Chess Club") (emptyPage "a@x.com")) =
    observe (emptyPage "a@x.com")
      [Fetch POST (lit "/activities/Chess%20Club/signup?email=a%40x.com"); Alert shown]
    /\ shown = lit "Error: Already signed up"
    /\ shown <> lit "Already signed up".
Proof.
  exists (lit "Error: Already signed up"). split; [reflexivity|].
  split; [reflexivity|discriminate].
Qed.

(** C3, amended.  After an answer to the sign-up that is not 2xx nothing is
    fetched again and the container is untouched; when the body is JSON with
    a string [detail], the alert shows [Error: ] followed by that detail. *)
Theorem signUp_rejection_shows_prefixed_detail
    (server : Server) (activityName : jsstring) (p : Page) (url : jsstring) (r : Response) :
  trim (emailInput p) <> [] ->
  includes (trim (emailInput p)) (lit "@") = true ->
  signUpURL activityName (trim (emailInput p)) = Normal url ->
  server POST url = Resolved r ->
  ok r = false ->
  (exists rest,
      signUp server activityName p = (Normal tt, observe p (Fetch POST url :: rest))
      /\ existsb isFetch rest = false)
  /\
  (forall b d,
      body r = Some b ->
      get b detail = Normal (JStr d) ->
      signUp server activityName p =
      (Normal tt, observe p [Fetch POST url; Alert (lit "Error: " ++ d)])).
Proof.
  intros Hne Hat Hurl Hs Hok. split.
  - destruct (body r) as [b|] eqn:Hb.
    + rewrite (@signUp_not_ok server activityName p Hne Hat url Hurl r b Hs Hok Hb).
      eexists; split; [reflexivity|].
      now destruct (let? d := get b detail in ToString d).
    + destruct r as [st b]; simpl in Hb; subst b.
      rewrite (@signUp_body_not_json server activityName p Hne Hat url Hurl st Hs).
      eexists; split; reflexivity.
  - intros b d Hb Hd.
    rewrite (@signUp_not_ok server activityName p Hne Hat url Hurl r b Hs Hok Hb), Hd. reflexivity.
Qed.

Lemma signUp_rejection_shows_prefixed_detail_witness :
  let answer := {| status := 400;
                   body := Some (JObj [(lit "detail", JStr (lit "Already signed up"))]) |} in
  signUp (service answer answer) (lit "Chess Club") (emptyPage "a@x.com") =
  (Normal tt,
   observe (emptyPage "a@x.com")
     [Fetch POST (lit "/activities/Chess%20Club/signup?email=a%40x.com");
      Alert (lit "Error: " ++ lit "Already signed up")]).
Proof.
  intros answer.
  refine (proj2 (@signUp_rejection_shows_prefixed_detail (service answer answer)
                   (lit "Chess Club") (emptyPage "a@x.com")
                   (lit "/activities/Chess%20Club/signup?email=a%40x.com")
                   answer _ _ _ _ _) _ (lit "Already signed up") _ _).
  - discriminate.
  - reflexivity.
  - reflexivity.
  - reflexivity.
  - reflexivity.
  - reflexivity.
  - reflexivity.
Defined.

(** ** Nothing escapes the two operations *)




(** ** The status of the list response *)

Lemma loadActivities_ignores_status (st st' : Z) (b : option JsVal) (p : Page) :
  loadActivities (always st b) p = loadActivities (always st' b) p.
Proof.
  destruct b as [b|].
  - now rewrite (@loadActivities_json (always st (Some b)) p st b eq_refl),
      (@loadActivities_json (always st' (Some b)) p st' b eq_refl).
  - now rewrite (@loadActivities_not_json (always st None) p st eq_refl),
      (@loadActivities_not_json (always st' None) p st' eq_refl).
Qed.

(** C2 (the code differs).  [loadActivities] never looks at the status: a
    500 answer carrying a JSON mapping is rendered as activities, with no
    error text and nothing logged. *)
Theorem loadActivities_renders_non_2xx_body :
  ok {| status := 500; body := Some chessClub |} = false
  /\ loadActivities (always 500 (Some chessClub)) (emptyPage "") =
     (Normal tt,
      repaint (emptyPage "") (List.map Child (cardsOf chessClub)) [loadRequest])
  /\ List.length (cardsOf chessClub) = 1
  /\ List.map Child (cardsOf chessClub) <> [Markup errorLoading].
Proof.
  split; [reflexivity|]. split; [|split].
  - now rewrite (@loadActivities_json (always 500 (Some chessClub)) (emptyPage "")
                   500 chessClub eq_refl).
  - reflexivity.
  - discriminate.
Qed.

(** ** Percent-encoding *)

Section PercentEncoding.

Ltac Zify.zify_post_hook ::= Z.to_euclidean_division_equations.

Lemma hexDigit_value (d : N) :
  (d < 16)%N -> digitValue (hexDigit d) = Some d.
Proof.
  intros H.
  assert (Hd : In d (List.map N.of_nat (seq 0 16))).
  { replace d with (N.of_nat (N.to_nat d)) by apply N2Nat.id.
    apply in_map, in_seq. lia. }
  simpl in Hd.
  repeat (destruct Hd as [<-|Hd]; [reflexivity|]). contradiction.
Qed.

Lemma hexDigit_unreserved (d : N) :
  (d < 16)%N -> isUnreserved (hexDigit d) = true.
Proof.
  intros H.
  assert (Hd : In d (List.map N.of_nat (seq 0 16))).
  { replace d with (N.of_nat (N.to_nat d)) by apply N2Nat.id.
    apply in_map, in_seq. lia. }
  simpl in Hd.
  repeat (destruct Hd as [<-|Hd]; [reflexivity|]). contradiction.
Qed.

Lemma percentDecode_escapeOctet (b : N) (r : jsstring) :
  (b < 256)%N ->
  percentDecode (escapeOctet b ++ r) = option_map (cons b) (percentDecode r).
Proof.
  intros H. unfold escapeOctet. cbn [app percentDecode N.eqb Pos.eqb].
  rewrite !hexDigit_value by lia.
  replace (16 * (b / 16) + b mod 16)%N with b by lia.
  now destruct (percentDecode r).
Qed.

Lemma percentDecode_escaped (bs : list N) (r : jsstring) :
  Forall (fun b => (b < 256)%N) bs ->
  percentDecode (flat_map escapeOctet bs ++ r) = option_map (app bs) (percentDecode r).
Proof.
  induction 1 as [|b bs Hb _ IH]; cbn [flat_map].
  - cbn [app]. now destruct (percentDecode r).
  - rewrite <- app_assoc, percentDecode_escapeOctet, IH by assumption.
    now destruct (percentDecode r).
Qed.

Lemma utf8_octets (cp : N) :
  (cp < 1114112)%N -> Forall (fun b => (b < 256)%N) (utf8 cp).
Proof.
  intros H. unfold utf8.
  repeat match goal with
         | |- context [(?a <? ?b)%N] => destruct (N.ltb_spec a b)
         end;
    repeat constructor; lia.
Qed.

Lemma escapeOctet_chars (b : N) :
  (b < 256)%N -> forallb isComponentChar (escapeOctet b) = true.
Proof.
  intros H. unfold escapeOctet, isComponentChar. cbn [forallb].
  rewrite !hexDigit_unreserved by lia. reflexivity.
Qed.

Lemma escape_chars (cp : N) :
  (cp < 1114112)%N -> forallb isComponentChar (escape cp) = true.
Proof.
  intros H. unfold escape.
  induction (utf8_octets H) as [|b bs Hb _ IH]; cbn [flat_map].
  - reflexivity.
  - now rewrite forallb_app, escapeOctet_chars, IH.
Qed.

Lemma surrogatePair_range (c d : N) :
  isLeadingSurrogate c = true -> isTrailingSurrogate d = true ->
  (surrogatePair c d < 1114112)%N.
Proof.
  unfold isLeadingSurrogate, isTrailingSurrogate, surrogatePair. lia.
Qed.

Lemma unreserved_ascii (c : N) :
  isUnreserved c = true -> (c < 128)%N /\ (c =? 37)%N = false.
Proof.
  unfold isUnreserved, isDigit. lia.
Qed.

Lemma utf8Octets_cons (cp : N) (s : jsstring) :
  isLeadingSurrogate cp = false ->
  utf8Octets (cp :: s) = utf8 cp ++ utf8Octets s.
Proof.
  intros H. unfold utf8Octets. cbn [codePoints]. now rewrite H.
Qed.

Lemma utf8Octets_pair (c d : N) (s : jsstring) :
  isLeadingSurrogate c = true ->
  utf8Octets (c :: d :: s) = utf8 (surrogatePair c d) ++ utf8Octets s.
Proof.
  intros H. unfold utf8Octets. cbn [codePoints]. now rewrite H.
Qed.

(** On a well-formed string [encodeURIComponent] returns; what it returns
    is made of unreserved characters and [%XX] escapes, and reads back as
    the UTF-8 octets of the string. *)
Lemma encodeURIComponent_wellFormed (s : jsstring) :
  isWellFormed s = true ->
  exists a,
    encodeURIComponent s = Normal a
    /\ forallb isComponentChar a = true
    /\ percentDecode a = Some (utf8Octets s).
Proof.
  remember (List.length s) as n eqn:Hn.
  assert (Hle : (List.length s <= n)%nat) by lia. clear Hn.
  revert s Hle. induction n as [|n IH]; intros s Hle Hwf.
  - destruct s; [|simpl in Hle; lia]. exists []. repeat split.
  - destruct s as [|c rest]; [exists []; repeat split|].
    cbn [isWellFormed] in Hwf. cbn [encodeURIComponent].
    apply andb_prop in Hwf as [Hc Hwf].
    destruct (isUnreserved c) eqn:Hu.
    + destruct (unreserved_ascii _ Hu) as [Hascii Hpct].
      assert (Hl : isLeadingSurrogate c = false)
        by (unfold isLeadingSurrogate; lia).
      rewrite Hl in Hwf. apply andb_prop in Hwf as [_ Hwf].
      destruct (IH rest) as (a & Ha & Hchars & Hdec);
        [simpl in Hle; lia | assumption |].
      exists (c :: a). rewrite Ha. cbn [cbind forallb percentDecode].
      unfold isComponentChar at 1. rewrite Hu, Hchars, Hpct, Hdec.
      repeat split. cbn [option_map].
      rewrite utf8Octets_cons by assumption. unfold utf8.
      destruct (N.ltb_spec c 128); [reflexivity | lia].
    + destruct (isLeadingSurrogate c) eqn:Hl.
      * destruct rest as [|d rest']; [discriminate|].
        apply andb_prop in Hwf as [Hd Hwf]. rewrite Hd.
        destruct (IH rest') as (a & Ha & Hchars & Hdec);
          [simpl in Hle; lia | assumption |].
        pose proof (surrogatePair_range _ _ Hl Hd) as Hr.
        exists (escape (surrogatePair c d) ++ a). rewrite Ha. cbn [cbind].
        repeat split.
        -- now rewrite forallb_app, escape_chars, Hchars.
        -- unfold escape. rewrite percentDecode_escaped by now apply utf8_octets.
           rewrite Hdec. cbn [option_map]. now rewrite utf8Octets_pair.
      * apply andb_prop in Hwf as [Ht Hwf].
        apply negb_true_iff in Ht. rewrite Ht.
        destruct (IH rest) as (a & Ha & Hchars & Hdec);
          [simpl in Hle; lia | assumption |].
        assert (Hr : (c < 1114112)%N) by lia.
        exists (escape c ++ a). rewrite Ha. cbn [cbind].
        repeat split.
        -- now rewrite forallb_app, escape_chars, Hchars.
        -- unfold escape. rewrite percentDecode_escaped by now apply utf8_octets.
           rewrite Hdec. cbn [option_map]. now rewrite utf8Octets_cons.
Qed.

(** Conversely, a string of 16-bit code units with an unpaired surrogate
    makes [encodeURIComponent] throw. *)
Lemma encodeURIComponent_malformed (s : jsstring) :
  Forall (fun c => (c < 65536)%N) s ->
  isWellFormed s = false ->
  encodeURIComponent s = Throw URIError.
Proof.
  remember (List.length s) as n eqn:Hn.
  assert (Hle : (List.length s <= n)%nat) by lia. clear Hn.
  revert s Hle. induction n as [|n IH]; intros s Hle Hunits Hwf.
  - destruct s; [discriminate | simpl in Hle; lia].
  - destruct s as [|c rest]; [discriminate|].
    inversion Hunits as [|? ? Hc Hrest]; subst.
    cbn [isWellFormed] in Hwf. cbn [encodeURIComponent].
    apply N.ltb_lt in Hc. rewrite Hc in Hwf. cbn [andb] in Hwf.
    destruct (isUnreserved c) eqn:Hu.
    + destruct (unreserved_ascii _ Hu) as [Hascii _].
      assert (Hl : isLeadingSurrogate c = false)
        by (unfold isLeadingSurrogate; lia).
      assert (Ht : isTrailingSurrogate c = false)
        by (unfold isTrailingSurrogate; lia).
      rewrite Hl, Ht in Hwf. cbn [negb andb] in Hwf.
      rewrite IH; [reflexivity | simpl in Hle; lia | assumption | assumption].
    + destruct (isLeadingSurrogate c).
      * destruct rest as [|d rest']; [reflexivity|].
        destruct (isTrailingSurrogate d); [|reflexivity].
        cbn [andb] in Hwf. inversion Hrest; subst.
        rewrite IH; [reflexivity | simpl in Hle; lia | assumption | assumption].
      * destruct (isTrailingSurrogate c); [reflexivity|].
        cbn [negb andb] in Hwf.
        rewrite IH; [reflexivity | simpl in Hle; lia | assumption | assumption].
Qed.

End PercentEncoding.

(** ** The sign-up request is issued once, the list reloaded once *)

Section SignUpRequest.

Variable server : Server.
Variable activityName : jsstring.
Variable p : Page.
Variable url : jsstring.

Hypothesis email_not_empty : trim (emailInput p) <> [].
Hypothesis email_has_at : includes (trim (emailInput p)) (lit "@") = true.
Hypothesis url_ok : signUpURL activityName (trim (emailInput p)) = Normal url.

Lemma signUp_accepted (r : Response) (b : JsVal) (msg : jsstring) :
  server POST url = Resolved r ->
  ok r = true ->
  body r = Some b ->
  (let? m := get b message in ToString m) = Normal msg ->
  exists nodes rest,
    signUp server activityName p =
    (Normal tt, repaint p nodes ([Fetch POST url; Alert msg; loadRequest] ++ rest))
    /\ existsb isFetch rest = false.
Proof.
  intros Hs Hok Hb Hm.
  rewrite (@signUp_ok server activityName p url email_not_empty email_has_at
             url_ok r b Hs Hok Hb), Hm.
  destruct (loadActivities_total server (observe p [Fetch POST url; Alert msg]))
    as (nodes & rest & Hload & Hrest).
  rewrite Hload. exists nodes, rest. split.
  - unfold repaint, observe; simpl. now rewrite <- app_assoc.
  - destruct Hrest as [->|(e & -> & _)]; reflexivity.
Qed.

Lemma signUp_posts_once :
  exists rest,
    events (snd (signUp server activityName p)) = events p ++ Fetch POST url :: rest
    /\ existsb isPost rest = false.
Proof.
  destruct (server POST url) as [|r] eqn:Hs.
  { rewrite (@signUp_fetch_rejected server activityName p email_not_empty
               email_has_at url url_ok Hs).
    eexists; split; reflexivity. }
  destruct (body r) as [b|] eqn:Hb.
  2: { destruct r as [st b']; simpl in Hb; subst b'.
       rewrite (@signUp_body_not_json server activityName p email_not_empty
                  email_has_at url url_ok st Hs).
       eexists; split; reflexivity. }
  destruct (ok r) eqn:Hok.
  - destruct (let? m := get b message in ToString m) as [msg|e] eqn:Hm.
    + destruct (signUp_accepted Hs Hok Hb Hm) as (nodes & rest & H & Hrest).
      rewrite H. exists ([Alert msg; loadRequest] ++ rest). split; [reflexivity|].
      cbn [app existsb isPost loadRequest orb].
      clear - Hrest. induction rest as [|[[]| |] rest IH]; simpl in *; auto; discriminate.
    + rewrite (@signUp_ok server activityName p url email_not_empty email_has_at
                 url_ok r b Hs Hok Hb), Hm.
      eexists; split; reflexivity.
  - rewrite (@signUp_not_ok server activityName p email_not_empty email_has_at
               url url_ok r b Hs Hok Hb).
    eexists; split; [reflexivity|].
    now destruct (let? d := get b detail in ToString d).
Qed.

End SignUpRequest.

(** The claim of C4 fails as stated.  An activity name that holds an
    unpaired surrogate has no percent-encoding: [encodeURIComponent] throws
    and no request is issued.  And a 2xx answer whose JSON body is [null]
    has no [message] to read: the generic failure is alerted and the list
    is not loaded again. *)
Lemma signUp_unpaired_surrogate_no_request :
  (trim (emailInput (emptyPage "a@x.com")) <> []
   /\ includes (trim (emailInput (emptyPage "a@x.com"))) (lit "@") = true
   /\ encodeURIComponent [55296%N] = Throw URIError
   /\ signUp (always 200 (Some (JObj [(lit "message", JStr (lit "Signed up"))])))
             [55296%N] (emptyPage "a@x.com") =
      (Normal tt,
       observe (emptyPage "a@x.com")
         [ConsoleError (lit "Error signing up:") URIError;
          Alert (lit "Error signing up. Please try again later.")]))
  /\
  (ok {| status := 200; body := Some JNull |} = true
   /\ signUp (always 200 (Some JNull)) (lit "Chess Club") (emptyPage "a@x.com") =
      (Normal tt,
       observe (emptyPage "a@x.com")
         [Fetch POST (lit "/activities/Chess%20Club/signup?email=a%40x.com");
          ConsoleError (lit "Error signing up:") TypeError;
          Alert (lit "Error signing up. Please try again later.")])).
Proof.
  split.
  - split; [discriminate|]. repeat split.
  - split; reflexivity.
Qed.

(** C4, amended.  For an activity name and a trimmed e-mail that are
    well-formed strings, the e-mail non-empty and containing [@]: both have
    a percent-encoding (unreserved characters and [%XX] escapes that read
    back as their UTF-8 octets); [signUp] issues exactly one POST, to
    [/activities/<name>/signup?email=<email>] built from these encodings;
    and on a 2xx answer whose JSON body has a string [message] it alerts
    that message and then fetches the activity list exactly once. *)
Theorem signUp_posts_once_and_reloads_once
    (server : Server) (activityName : jsstring) (p : Page) :
  trim (emailInput p) <> [] ->
  includes (trim (emailInput p)) (lit "@") = true ->
  isWellFormed activityName = true ->
  isWellFormed (trim (emailInput p)) = true ->
  exists a e,
    (encodeURIComponent activityName = Normal a
     /\ forallb isComponentChar a = true
     /\ percentDecode a = Some (utf8Octets activityName))
    /\ (encodeURIComponent (trim (emailInput p)) = Normal e
        /\ forallb isComponentChar e = true
        /\ percentDecode e = Some (utf8Octets (trim (emailInput p))))
    /\ (exists rest,
          events (snd (signUp server activityName p)) =
          events p ++ Fetch POST (lit "/activities/" ++ a ++ lit "/signup?email=" ++ e) :: rest
          /\ existsb isPost rest = false)
    /\ (forall r b m,
          server POST (lit "/activities/" ++ a ++ lit "/signup?email=" ++ e) = Resolved r ->
          ok r = true ->
          body r = Some b ->
          get b message = Normal (JStr m) ->
          exists nodes rest,
            signUp server activityName p =
            (Normal tt,
             repaint p nodes
               ([Fetch POST (lit "/activities/" ++ a ++ lit "/signup?email=" ++ e);
                 Alert m; Fetch GET (lit "/activities")] ++ rest))
            /\ existsb isFetch rest = false).
Proof.
  intros Hne Hat Hname Hemail.
  destruct (encodeURIComponent_wellFormed _ Hname) as (a & Ha & Hachars & Hadec).
  destruct (encodeURIComponent_wellFormed _ Hemail) as (e & He & Hechars & Hedec).
  assert (Hurl : signUpURL activityName (trim (emailInput p)) =
                 Normal (lit "/activities/" ++ a ++ lit "/signup?email=" ++ e)).
  { unfold signUpURL. now rewrite Ha, He. }
  exists a, e. repeat split; try assumption.
  - now apply signUp_posts_once.
  - intros r b m Hs Hok Hb Hm.
    apply (@signUp_accepted server activityName p _ Hne Hat Hurl r b m Hs Hok Hb).
    now rewrite Hm.
Qed.

(** ** What rendering can throw *)

Create HintDb throws.

Lemma onlyTypeError_normal {A} (a : A) : onlyTypeError (Normal a).
Proof. intros e H. discriminate. Qed.

Lemma onlyTypeError_throw {A} : onlyTypeError (@Throw A TypeError).
Proof. intros e H. now injection H. Qed.

Lemma onlyTypeError_cbind {A B} (c : Completion A) (k : A -> Completion B) :
  onlyTypeError c -> (forall a, onlyTypeError (k a)) -> onlyTypeError (cbind c k).
Proof.
  intros Hc Hk e H. destruct c as [a|e']; simpl in H.
  - now apply (Hk a).
  - apply Hc. congruence.
Qed.

Lemma onlyTypeError_if {A} (b : bool) (c c' : Completion A) :
  onlyTypeError c -> onlyTypeError c' -> onlyTypeError (if b then c else c').
Proof. now destruct b. Qed.

#[local] Hint Resolve onlyTypeError_normal onlyTypeError_throw onlyTypeError_if : throws.
#[local] Hint Extern 2 (onlyTypeError (cbind _ _)) =>
  apply onlyTypeError_cbind; [|intro] : throws.

Lemma get_throws (v : JsVal) (f : Field) : onlyTypeError (get v f).
Proof.
  destruct v; cbn [get]; auto with throws.
  - destruct f; auto with throws.
  - destruct f; auto with throws.
  - destruct (ownProperty props (fieldName f)); auto with throws.
Qed.

Lemma ToString_throws : forall v : JsVal, onlyTypeError (ToString v).
Proof.
  fix IH 1. intros v. destruct v as [| |b|n|s|l|props]; cbn [ToString].
  1-5: clear IH; try destruct b; auto with throws.
  - apply onlyTypeError_cbind; [|clear IH; auto with throws].
    revert l. fix IHl 1. intros [|x l].
    + clear IH IHl. auto with throws.
    + apply onlyTypeError_cbind.
      * pose proof (IH x) as Hx. clear IH IHl. destruct x; auto with throws.
      * intro a. apply onlyTypeError_cbind; [apply IHl | clear; auto with throws].
  - clear IH. destruct (ownProperty props (lit "toString")); auto with throws.
Qed.

#[local] Hint Resolve get_throws ToString_throws : throws.

Lemma gtZero_throws (v : JsVal) : onlyTypeError (gtZero v).
Proof.
  destruct v; cbn [gtZero]; auto with throws.
Qed.

Lemma listItem_throws (email : JsVal) : onlyTypeError (listItem email).
Proof. unfold listItem. auto with throws. Qed.

Lemma callMap_throws (v : JsVal) : onlyTypeError (callMap v listItem).
Proof.
  destruct v; cbn [callMap]; auto with throws.
  induction elems as [|x l IH]; cbn [mapM]; auto with throws.
  apply onlyTypeError_cbind; [apply listItem_throws|intro].
  apply onlyTypeError_cbind; auto with throws.
Qed.

#[local] Hint Resolve gtZero_throws callMap_throws : throws.

Lemma participantsList_throws (details : JsVal) :
  onlyTypeError (participantsList details).
Proof. unfold participantsList. auto 8 with throws. Qed.

Lemma capacityCount_throws (details : JsVal) :
  onlyTypeError (capacityCount details).
Proof. unfold capacityCount. auto 8 with throws. Qed.

#[local] Hint Resolve participantsList_throws capacityCount_throws : throws.

Lemma renderCard_throws (name : jsstring) (details : JsVal) :
  onlyTypeError (renderCard name details).
Proof. unfold renderCard. cbv zeta. auto 12 with throws. Qed.

Lemma entries_throws (activities : JsVal) : onlyTypeError (entries activities).
Proof. destruct activities; cbn [entries]; auto with throws. Qed.

(** A mapping with an entry that cannot be rendered makes the loop throw
    [TypeError], at that entry or at an earlier one. *)
Lemma firstFailure_In (es : list (jsstring * JsVal)) (name : jsstring) (details : JsVal) :
  In (name, details) es ->
  renderCard name details = Throw TypeError ->
  firstFailure es = Some TypeError.
Proof.
  intros Hin Hthrow. induction es as [|[n d] es IH]; [contradiction|].
  cbn [firstFailure].
  destruct (renderCard n d) as [card|e] eqn:Hr.
  - destruct Hin as [Heq|Hin]; [|now apply IH].
    injection Heq as -> ->. congruence.
  - f_equal. now apply (@renderCard_throws n d).
Qed.

(** ** Reading the markup *)

Lemma startsWith_app (x post : jsstring) : startsWith (x ++ post) x = true.
Proof.
  induction x as [|c x IH]; [now destruct post|].
  cbn [app startsWith]. now rewrite N.eqb_refl, IH.
Qed.

Lemma includes_here (s x : jsstring) : startsWith s x = true -> includes s x = true.
Proof. intros H. destruct s; cbn [includes]; now rewrite H. Qed.

Lemma includes_app (pre x post : jsstring) : includes (pre ++ x ++ post) x = true.
Proof.
  induction pre as [|c pre IH].
  - cbn [app]. apply includes_here. apply startsWith_app.
  - cbn [app includes]. rewrite IH. apply orb_true_r.
Qed.

Lemma cardHTML_h2 (name d s count maxp plist : jsstring) :
  includes (cardHTML name d s count maxp plist) (h2Line name) = true.
Proof.
  unfold cardHTML. rewrite (app_assoc newline). apply includes_app.
Qed.

Lemma cardHTML_description (name d s count maxp plist : jsstring) :
  includes (cardHTML name d s count maxp plist) (descriptionLine d) = true.
Proof.
  unfold cardHTML.
  rewrite (app_assoc newline), (app_assoc _ (h2Line name)),
    (app_assoc _ newline), (app_assoc _ (indent 12)).
  apply includes_app.
Qed.

Lemma cardHTML_schedule (name d s count maxp plist : jsstring) :
  includes (cardHTML name d s count maxp plist) (scheduleLine s) = true.
Proof.
  unfold cardHTML.
  rewrite (app_assoc newline), (app_assoc _ (h2Line name)),
    (app_assoc _ newline), (app_assoc _ (indent 12)),
    (app_assoc _ (descriptionLine d)), (app_assoc _ newline),
    (app_assoc _ (indent 12)).
  apply includes_app.
Qed.

Lemma cardHTML_capacity (name d s count maxp plist : jsstring) :
  includes (cardHTML name d s count maxp plist) (capacityLine count maxp) = true.
Proof.
  unfold cardHTML.
  rewrite (app_assoc newline), (app_assoc _ (h2Line name)),
    (app_assoc _ newline), (app_assoc _ (indent 12)),
    (app_assoc _ (descriptionLine d)), (app_assoc _ newline),
    (app_assoc _ (indent 12)), (app_assoc _ (scheduleLine s)),
    (app_assoc _ newline), (app_assoc _ (indent 12)).
  apply includes_app.
Qed.

Lemma cardHTML_participants (name d s count maxp plist : jsstring) :
  includes (cardHTML name d s count maxp plist) (participantsSection plist) = true.
Proof.
  unfold cardHTML.
  rewrite (app_assoc newline), (app_assoc _ (h2Line name)),
    (app_assoc _ newline), (app_assoc _ (indent 12)),
    (app_assoc _ (descriptionLine d)), (app_assoc _ newline),
    (app_assoc _ (indent 12)), (app_assoc _ (scheduleLine s)),
    (app_assoc _ newline), (app_assoc _ (indent 12)),
    (app_assoc _ (capacityLine count maxp)), (app_assoc _ newline),
    (app_assoc _ (indent 12)).
  apply includes_app.
Qed.

(** ** Rendering one card *)

Lemma renderCard_inv (name : jsstring) (details : JsVal) (card : Element) :
  renderCard name details = Normal card ->
  exists plist d s count maxp,
    participantsList details = Normal plist
    /\ (let? v := get details description in ToString v) = Normal d
    /\ (let? v := get details schedule in ToString v) = Normal s
    /\ (let? v := capacityCount details in ToString v) = Normal count
    /\ (let? v := get details max_participants in ToString v) = Normal maxp
    /\ card = {| tagName := lit "div";
                 className := lit "activity-card";
                 innerHTML := cardHTML name d s count maxp plist |}.
Proof.
  unfold renderCard. cbv zeta.
  destruct (participantsList details) as [plist|]; [|discriminate].
  cbn [cbind].
  destruct (let? v := get details description in ToString v) as [d|]; [|discriminate].
  cbn [cbind].
  destruct (let? v := get details schedule in ToString v) as [s|]; [|discriminate].
  cbn [cbind].
  destruct (let? v := capacityCount details in ToString v) as [count|]; [|discriminate].
  cbn [cbind].
  destruct (let? v := get details max_participants in ToString v) as [maxp|];
    [|discriminate].
  cbn [cbind]. intros H. injection H as <-.
  exists plist, d, s, count, maxp. repeat split.
Qed.

Lemma get_own (props : list (jsstring * JsVal)) (f : Field) (v : JsVal) :
  ownProperty props (fieldName f) = Some v -> get (JObj props) f = Normal v.
Proof. intros H. cbn [get]. now rewrite H. Qed.

Lemma get_absent (props : list (jsstring * JsVal)) (f : Field) :
  ownProperty props (fieldName f) = None -> get (JObj props) f = Normal JUndefined.
Proof. intros H. cbn [get]. now rewrite H. Qed.

Lemma mapM_listItem_strings (emails : list JsVal) :
  forallb isString emails = true ->
  exists items, mapM listItem emails = Normal items.
Proof.
  induction emails as [|x l IH]; cbn [forallb mapM]; intros H.
  - now exists [].
  - apply andb_prop in H as [Hx Hl]. destruct (IH Hl) as [items Hitems].
    destruct x; try discriminate. cbn. rewrite Hitems. cbn. eauto.
Qed.

(** The participants list of a record whose [participants] is an array. *)
Lemma participantsList_array (details : JsVal) (emails : list JsVal) :
  get details participants = Normal (JArr emails) ->
  participantsList details =
  match emails with
  | [] => Normal noParticipants
  | _ => let? items := mapM listItem emails in
         Normal (participantsListHTML (joinWith [] items))
  end.
Proof.
  intros H. unfold participantsList. rewrite H. cbn [cbind ToBoolean get gtZero].
  destruct emails as [|x l]; [reflexivity|].
  replace (0 <? Z.of_nat (List.length (x :: l)))%Z with true
    by (cbn [List.length]; lia).
  reflexivity.
Qed.

(** The count of a record whose [participants] is an array. *)
Lemma capacityCount_array (details : JsVal) (emails : list JsVal) (current : JsVal) :
  get details participants = Normal (JArr emails) ->
  get details current_participants = Normal current ->
  capacityCount details =
  Normal (if ToBoolean current then current
          else JNum (Z.of_nat (List.length emails))).
Proof.
  intros Hp Hc. unfold capacityCount. rewrite Hc. cbn [cbind].
  destruct (ToBoolean current); [reflexivity|]. now rewrite Hp.
Qed.

(** An Activity record renders, and the card shows it. *)
Lemma renderCard_activity (name : jsstring) (details : JsVal) :
  isActivity details = true ->
  exists card, renderCard name details = Normal card /\ shows (name, details) card.
Proof.
  destruct details as [| | | | | |props]; try discriminate. cbn [isActivity].
  destruct (ownProperty props (lit "description")) as [[| | | |d| |]|] eqn:Hd;
    try discriminate.
  destruct (ownProperty props (lit "schedule")) as [[| | | |s| |]|] eqn:Hs;
    try discriminate.
  destruct (ownProperty props (lit "max_participants")) as [[| | |m | | |]|] eqn:Hm;
    try discriminate.
  destruct (ownProperty props (lit "participants")) as [[| | | | |emails|]|] eqn:Hp;
    try discriminate.
  intros H. apply andb_prop in H as [H Hcur].
  apply andb_prop in H as [H Hemails]. clear H.
  assert (Hcount : exists count,
             (let? v := capacityCount (JObj props) in ToString v) = Normal count).
  { destruct (ownProperty props (lit "current_participants")) as [cur|] eqn:Hc.
    - rewrite (@capacityCount_array _ emails cur)
        by (apply get_own; assumption).
      destruct cur; try discriminate. cbn. destruct (n =? 0)%Z; cbn; eauto.
    - rewrite (@capacityCount_array _ emails JUndefined)
        by first [apply get_own; assumption | apply get_absent; assumption].
      cbn. eauto. }
  destruct Hcount as [count Hcount].
  assert (Hplist : exists plist, participantsList (JObj props) = Normal plist).
  { rewrite (@participantsList_array _ emails) by (apply get_own; assumption).
    destruct emails as [|x l]; [eauto|].
    destruct (mapM_listItem_strings _ Hemails) as [items ->]. cbn. eauto. }
  destruct Hplist as [plist Hplist].
  exists {| tagName := lit "div";
            className := lit "activity-card";
            innerHTML := cardHTML name d s count (ofZ m) plist |}.
  split.
  - unfold renderCard. cbv zeta. rewrite Hplist. cbn [cbind].
    rewrite (@get_own props description _ Hd), (@get_own props schedule _ Hs),
      (@get_own props max_participants _ Hm). cbn [cbind ToString].
    rewrite Hcount. reflexivity.
  - split; [reflexivity|]. split; [reflexivity|].
    exists d, s. cbn [fst snd innerHTML].
    rewrite (@get_own props description _ Hd), (@get_own props schedule _ Hs).
    repeat split.
    + exact (cardHTML_h2 name d s count (ofZ m) plist).
    + exact (cardHTML_description name d s count (ofZ m) plist).
    + exact (cardHTML_schedule name d s count (ofZ m) plist).
Qed.

(** ** The rendered list *)

Lemma rendered_activities (es : list (jsstring * JsVal)) :
  Forall (fun entry => isActivity (snd entry) = true) es ->
  firstFailure es = None /\ Forall2 shows es (rendered es).
Proof.
  induction 1 as [|[name details] es Hact _ [IHf IHs]]; cbn [firstFailure rendered].
  - split; constructor.
  - cbn [snd] in Hact.
    destruct (renderCard_activity name _ Hact) as (card & -> & Hshows).
    split; [assumption|]. now constructor.
Qed.

(** C6.  Given a mapping of N Activity records, [displayActivities]
    completes normally and leaves in the container exactly N activity
    cards, in the order of the mapping, whatever the container held
    before; each card shows the name, the description and the schedule of
    its activity. *)
Theorem displayActivities_renders_every_activity
    (es : list (jsstring * JsVal)) (p : Page) :
  Forall (fun entry => isActivity (snd entry) = true) es ->
  exists cards,
    displayActivities (JObj es) p =
    (Normal tt,
     {| activitiesContainer := List.map Child cards;
        emailInput := emailInput p;
        events := events p |})
    /\ List.length cards = List.length es
    /\ Forall2 shows es cards.
Proof.
  intros Hes. destruct (rendered_activities Hes) as [Hf Hs].
  exists (rendered es). repeat split.
  - rewrite displayActivities_run. unfold displayOutcome, cardsOf, repaint.
    cbn [entries]. rewrite Hf, app_nil_r. reflexivity.
  - symmetry. eapply Forall2_length, Hs.
  - assumption.
Qed.

Lemma displayActivities_renders_every_activity_witness :
  exists cards,
    displayActivities chessClub
      {| activitiesContainer := [Markup errorLoading];
         emailInput := [];
         events := [] |} =
    (Normal tt,
     {| activitiesContainer := List.map Child cards;
        emailInput := [];
        events := [] |})
    /\ List.length cards = 1%nat
    /\ Forall2 shows chessClubEntries cards.
Proof.
  refine (@displayActivities_renders_every_activity chessClubEntries
            {| activitiesContainer := [Markup errorLoading];
               emailInput := [];
               events := [] |} _).
  repeat constructor.
Defined.

(** C7.  When the participants list of a record is the empty array, the
    markup computed for the list is the placeholder paragraph
    [<p class="no-participants">No participants yet</p>] and not a [ul]
    element: every card rendered from the record holds the participants
    section with its heading followed by that paragraph alone, and this
    section holds no [<ul].  An Activity record with no participants does
    render.  (10 is the line feed, 32 the space and 34 the double quote.) *)
Theorem empty_participants_render_placeholder (name : jsstring) (details : JsVal) :
  get details participants = Normal (JArr []) ->
  participantsList details =
  Normal (lit "<p class=" ++ [34%N] ++ lit "no-participants" ++ [34%N]
          ++ lit ">No participants yet</p>")
  /\ (forall card,
        renderCard name details = Normal card ->
        includes (innerHTML card)
          (lit "<div class=" ++ [34%N] ++ lit "participants-section" ++ [34%N] ++ lit ">"
           ++ [10%N] ++ repeat 32%N 16 ++ lit "<h3>Participants:</h3>"
           ++ [10%N] ++ repeat 32%N 16
           ++ lit "<p class=" ++ [34%N] ++ lit "no-participants" ++ [34%N]
           ++ lit ">No participants yet</p>"
           ++ [10%N] ++ repeat 32%N 12 ++ lit "</div>") = true
        /\ exists d s count maxp,
             innerHTML card = cardHTML name d s count maxp noParticipants)
  /\ includes
       (lit "<div class=" ++ [34%N] ++ lit "participants-section" ++ [34%N] ++ lit ">"
        ++ [10%N] ++ repeat 32%N 16 ++ lit "<h3>Participants:</h3>"
        ++ [10%N] ++ repeat 32%N 16
        ++ lit "<p class=" ++ [34%N] ++ lit "no-participants" ++ [34%N]
        ++ lit ">No participants yet</p>"
        ++ [10%N] ++ repeat 32%N 12 ++ lit "</div>")
       (lit "<ul") = false
  /\ (isActivity details = true -> exists card, renderCard name details = Normal card).
Proof.
  intros Hp.
  assert (Hlist : participantsList details = Normal noParticipants)
    by now rewrite (participantsList_array _ Hp).
  split; [exact Hlist|]. split; [|split].
  - intros card Hr.
    destruct (renderCard_inv _ _ Hr) as (plist & d & s & count & maxp & Hpl & _ & _ & _ & _ & ->).
    rewrite Hlist in Hpl. injection Hpl as <-. split.
    + exact (cardHTML_participants name d s count maxp noParticipants).
    + now exists d, s, count, maxp.
  - vm_compute. reflexivity.
  - intros Hact. destruct (renderCard_activity name _ Hact) as (card & Hcard & _).
    now exists card.
Qed.

Lemma empty_participants_render_placeholder_witness :
  participantsList artClub =
  Normal (lit "<p class=" ++ [34%N] ++ lit "no-participants" ++ [34%N]
          ++ lit ">No participants yet</p>")
  /\ exists card,
       renderCard (lit "Art Club") artClub = Normal card
       /\ includes (innerHTML card)
            (lit "<p class=" ++ [34%N] ++ lit "no-participants" ++ [34%N]
             ++ lit ">No participants yet</p>") = true
       /\ includes (innerHTML card) (lit "<ul") = false.
Proof.
  destruct (@empty_participants_render_placeholder (lit "Art Club") artClub eq_refl)
    as (Hlist & Hcard & _ & Hrenders).
  split; [exact Hlist|].
  destruct (Hrenders eq_refl) as [card Hrender].
  exists card. split; [exact Hrender|].
  vm_compute in Hrender. injection Hrender as <-.
  split; vm_compute; reflexivity.
Defined.

(** C9.  A record that lacks [participants] and whose [current_participants]
    is absent or 0 cannot be rendered: the capacity computation reads
    [length] of [undefined] and throws [TypeError], so [displayActivities]
    throws on every mapping that holds such a record, although the
    expression for the participants list accepts the record and gives the
    placeholder. *)
Theorem missing_participants_throws
    (es : list (jsstring * JsVal)) (name : jsstring)
    (props : list (jsstring * JsVal)) (p : Page) :
  In (name, JObj props) es ->
  ownProperty props (lit "participants") = None ->
  ownProperty props (lit "current_participants") = None
  \/ ownProperty props (lit "current_participants") = Some (JNum 0) ->
  participantsList (JObj props) = Normal noParticipants
  /\ capacityCount (JObj props) = Throw TypeError
  /\ renderCard name (JObj props) = Throw TypeError
  /\ fst (displayActivities (JObj es) p) = Throw TypeError.
Proof.
  intros Hin Hp Hc.
  assert (Hlist : participantsList (JObj props) = Normal noParticipants).
  { unfold participantsList. now rewrite (@get_absent props participants Hp). }
  assert (Hcount : capacityCount (JObj props) = Throw TypeError).
  { unfold capacityCount.
    destruct Hc as [Hc|Hc].
    - now rewrite (@get_absent props current_participants Hc),
        (@get_absent props participants Hp).
    - now rewrite (@get_own props current_participants _ Hc),
        (@get_absent props participants Hp). }
  assert (Hcard : renderCard name (JObj props) = Throw TypeError).
  { destruct (renderCard name (JObj props)) as [card|e] eqn:Hr.
    - destruct (renderCard_inv _ _ Hr) as (_ & _ & _ & count & _ & _ & _ & _ & Hcnt & _).
      rewrite Hcount in Hcnt. discriminate.
    - f_equal. now apply (@renderCard_throws name (JObj props)). }
  repeat split; try assumption.
  rewrite displayActivities_run. unfold displayOutcome. cbn [fst entries].
  now rewrite (firstFailure_In _ _ _ Hin Hcard).
Qed.

(** With a truthy [current_participants] the capacity computation never
    reads [participants]: such a record renders without a roster. *)
Lemma truthy_current_needs_no_participants
    (name : jsstring) (props : list (jsstring * JsVal)) (d s : jsstring) (m n : Z) :
  isSafeInteger m = true ->
  isSafeInteger n = true ->
  ownProperty props (lit "participants") = None ->
  ownProperty props (lit "current_participants") = Some (JNum n) ->
  n <> 0%Z ->
  ownProperty props (lit "description") = Some (JStr d) ->
  ownProperty props (lit "schedule") = Some (JStr s) ->
  ownProperty props (lit "max_participants") = Some (JNum m) ->
  renderCard name (JObj props) =
  Normal {| tagName := lit "div";
            className := lit "activity-card";
            innerHTML := cardHTML name d s (ofZ n) (ofZ m) noParticipants |}.
Proof.
  intros _ _ Hp Hc Hn Hd Hs Hm.
  unfold renderCard, participantsList, capacityCount. cbv zeta.
  rewrite (@get_absent props participants Hp),
    (@get_own props current_participants _ Hc),
    (@get_own props description _ Hd), (@get_own props schedule _ Hs),
    (@get_own props max_participants _ Hm).
  cbn [cbind ToBoolean ToString].
  replace (n =? 0)%Z with false by lia. reflexivity.
Qed.

Lemma missing_participants_throws_witness :
  participantsList (JObj noRoster) = Normal noParticipants
  /\ capacityCount (JObj noRoster) = Throw TypeError
  /\ renderCard (lit "Art Club") (JObj noRoster) = Throw TypeError
  /\ fst (displayActivities (JObj [(lit "Art Club", JObj noRoster)]) (emptyPage ""))
     = Throw TypeError.
Proof.
  apply (@missing_participants_throws [(lit "Art Club", JObj noRoster)]
           (lit "Art Club") noRoster (emptyPage "")).
  - left. reflexivity.
  - reflexivity.
  - left. reflexivity.
Defined.

(** ** The capacity line *)

(** The claim of C1 fails as stated: a [current_participants] of 0 is
    present, yet the capacity line shows [participants.length]. *)
Lemma capacity_ignores_zero_current :
  get staleCount current_participants = Normal (JNum 0)
  /\ capacityCount staleCount = Normal (JNum 1)
  /\ exists card,
       renderCard (lit "Chess Club") staleCount = Normal card
       /\ includes (innerHTML card) (capacityLine (lit "1") (lit "10")) = true
       /\ includes (innerHTML card) (capacityLine (lit "0") (lit "10")) = false.
Proof.
  split; [reflexivity|]. split; [reflexivity|].
  eexists. split; [reflexivity|]. split; vm_compute; reflexivity.
Qed.

(** C1, amended.  In every card rendered, the capacity line shows
    [current_participants] when that value is truthy (present and not 0),
    and [participants.length] otherwise, over [max_participants]: the
    computation is [current_participants || participants.length]. *)
Theorem capacity_line_shows_truthy_current_or_length
    (name : jsstring) (details : JsVal) (card : Element) :
  renderCard name details = Normal card ->
  exists current maxv count maxp,
    get details current_participants = Normal current
    /\ get details max_participants = Normal maxv
    /\ ToString maxv = Normal maxp
    /\ includes (innerHTML card) (capacityLine count maxp) = true
    /\ (ToBoolean current = true -> ToString current = Normal count)
    /\ (ToBoolean current = false ->
        exists roster len,
          get details participants = Normal roster
          /\ get roster length = Normal len
          /\ ToString len = Normal count).
Proof.
  intros Hr.
  destruct (renderCard_inv _ _ Hr)
    as (plist & d & s & count & maxp & _ & _ & _ & Hcount & Hmax & ->).
  unfold capacityCount in Hcount.
  destruct (get details current_participants) as [current|] eqn:Hcur;
    [|discriminate].
  destruct (get details max_participants) as [maxv|] eqn:Hmaxv; [|discriminate].
  cbn [cbind] in Hcount, Hmax.
  exists current, maxv, count, maxp. repeat split; try assumption.
  - apply cardHTML_capacity.
  - intros Ht. now rewrite Ht in Hcount.
  - intros Hf. rewrite Hf in Hcount.
    destruct (get details participants) as [roster|]; [|discriminate].
    cbn [cbind] in Hcount.
    destruct (get roster length) as [len|] eqn:Hlen; [|discriminate].
    exists roster, len. repeat split; assumption.
Qed.

Lemma capacity_line_shows_truthy_current_or_length_witness :
  exists card,
    renderCard (lit "Chess Club") staleCount = Normal card
    /\ exists count,
         includes (innerHTML card) (capacityLine count (lit "10")) = true
         /\ ToString (JNum 1) = Normal count.
Proof.
  eexists. split; [reflexivity|].
  destruct (@capacity_line_shows_truthy_current_or_length (lit "Chess Club")
              staleCount _ eq_refl)
    as (current & maxv & count & maxp & Hcur & Hmaxv & Hmaxp & Hline & _ & Hlen).
  injection Hcur as <-. injection Hmaxv as <-. injection Hmaxp as <-.
  destruct (Hlen eq_refl) as (roster & len & Hroster & Hlength & Hcount).
  injection Hroster as <-. injection Hlength as <-.
  exists count. split; [exact Hline | exact Hcount].
Defined.

(** ** Witnesses of the remaining statements *)

Lemma signUp_validates_in_order_witness :
  signUp unreachable (lit "Chess Club") (emptyPage "   ") =
  (Normal tt, observe (emptyPage "   ") [Alert (lit "Please enter your email address")])
  /\ signUp unreachable (lit "Chess Club") (emptyPage " student ") =
     (Normal tt,
      observe (emptyPage " student ") [Alert (lit "Please enter a valid email address")]).
Proof.
  split.
  - apply (proj1 (signUp_validates_in_order unreachable (lit "Chess Club")
                    (emptyPage "   "))).
    reflexivity.
  - apply (proj2 (signUp_validates_in_order unreachable (lit "Chess Club")
                    (emptyPage " student "))).
    + discriminate.
    + reflexivity.
Defined.

Lemma signUp_posts_once_and_reloads_once_witness :
  let confirmation :=
    {| status := 200; body := Some (JObj [(lit "message", JStr (lit "Signed up"))]) |} in
  let list := {| status := 200; body := Some chessClub |} in
  exists nodes rest,
    signUp (service confirmation list) (lit "Chess Club") (emptyPage " a@x.com ") =
    (Normal tt,
     repaint (emptyPage " a@x.com ") nodes
       ([Fetch POST (lit "/activities/Chess%20Club/signup?email=a%40x.com");
         Alert (lit "Signed up"); Fetch GET (lit "/activities")] ++ rest))
    /\ existsb isFetch rest = false.
Proof.
  intros confirmation list.
  destruct (@signUp_posts_once_and_reloads_once (service confirmation list)
              (lit "Chess Club") (emptyPage " a@x.com "))
    as (a & e & (Ha & _) & (He & _) & _ & Hreload).
  - discriminate.
  - reflexivity.
  - reflexivity.
  - reflexivity.
  - vm_compute in Ha, He. injection Ha as <-. injection He as <-.
    apply (Hreload confirmation (JObj [(lit "message", JStr (lit "Signed up"))])
             (lit "Signed up")); reflexivity.
Defined.

(** * Further properties of the script *)

(** ** The two operations in one equation each *)

Lemma loadActivities_eq (server : Server) (p : Page) :
  loadActivities server p =
  (Normal tt, repaint p (fst (loadResult server)) (snd (loadResult server))).
Proof.
  unfold loadResult.
  destruct (server GET (lit "/activities")) as [|[st [b|]]] eqn:Hs; cbn [body].
  - now rewrite (@loadActivities_rejected server p Hs).
  - rewrite (@loadActivities_json server p st b Hs).
    now destruct (displayOutcome b).
  - now rewrite (@loadActivities_not_json server p st Hs).
Qed.

Lemma signUp_eq (server : Server) (activityName : jsstring) (p : Page) :
  signUp server activityName p =
  (Normal tt,
   {| activitiesContainer :=
        match fst (signUpEffects server activityName (trim (emailInput p))) with
        | Some nodes => nodes
        | None => activitiesContainer p
        end;
      emailInput := emailInput p;
      events := events p ++ snd (signUpEffects server activityName (trim (emailInput p))) |}).
Proof.
  unfold signUpEffects.
  destruct (trim (emailInput p)) as [|c email] eqn:He.
  { now rewrite signUp_empty_email. }
  assert (Hne : trim (emailInput p) <> []) by (rewrite He; discriminate).
  rewrite <- He in *. clear He c email.
  destruct (trim (emailInput p)) as [|c email] eqn:He; [congruence|].
  rewrite <- He in *.
  destruct (includes (trim (emailInput p)) (lit "@")) eqn:Hat; cbn [negb].
  2: { now rewrite signUp_no_at. }
  destruct (signUpURL activityName (trim (emailInput p))) as [url|e] eqn:Hurl.
  2: { now rewrite (@signUp_url_throws server activityName p Hne Hat e Hurl). }
  destruct (server POST url) as [|r] eqn:Hs.
  { now rewrite (@signUp_fetch_rejected server activityName p Hne Hat url Hurl Hs). }
  destruct (body r) as [b|] eqn:Hb.
  2: { destruct r as [st b']; cbn [body] in Hb; subst b'.
       now rewrite (@signUp_body_not_json server activityName p Hne Hat url Hurl st Hs). }
  destruct (ok r) eqn:Hok.
  - rewrite (@signUp_ok server activityName p url Hne Hat Hurl r b Hs Hok Hb).
    destruct (let? m := get b message in ToString m) as [msg|e]; [|reflexivity].
    rewrite loadActivities_eq. cbn [snd fst].
    unfold repaint, observe; cbn [events emailInput activitiesContainer].
    now rewrite <- app_assoc.
  - rewrite (@signUp_not_ok server activityName p Hne Hat url Hurl r b Hs Hok Hb).
    now destruct (let? d := get b detail in ToString d).
Qed.

(** ** Trimming the e-mail field *)

Lemma trimStart_all (s : jsstring) :
  forallb isWhiteSpace s = true -> trimStart s = [].
Proof.
  induction s as [|c s IH]; cbn [forallb trimStart]; [reflexivity|].
  intros H. apply andb_prop in H as [Hc Hs]. rewrite Hc. now apply IH.
Qed.

Lemma trimStart_split (s : jsstring) :
  exists pre, s = pre ++ trimStart s /\ forallb isWhiteSpace pre = true.
Proof.
  induction s as [|c s (pre & Hs & Hpre)]; cbn [trimStart].
  - now exists [].
  - destruct (isWhiteSpace c) eqn:Hc.
    + exists (c :: pre). cbn [app forallb]. rewrite Hc, Hpre. now rewrite <- Hs.
    + now exists [].
Qed.

Lemma trimStart_head (s : jsstring) (c : N) (r : jsstring) :
  trimStart s = c :: r -> isWhiteSpace c = false.
Proof.
  induction s as [|a s IH]; cbn [trimStart]; [discriminate|].
  destruct (isWhiteSpace a) eqn:Ha; [assumption|].
  intros H. injection H as <- _. assumption.
Qed.

Lemma trimStart_id (s : jsstring) :
  (forall c r, s = c :: r -> isWhiteSpace c = false) -> trimStart s = s.
Proof.
  destruct s as [|c s]; [reflexivity|]. intros H. cbn [trimStart].
  now rewrite (H c s eq_refl).
Qed.

Lemma forallb_rev (f : N -> bool) (s : jsstring) :
  forallb f (rev s) = forallb f s.
Proof.
  induction s as [|c s IH]; [reflexivity|].
  cbn [rev forallb]. rewrite forallb_app, IH. cbn [forallb].
  rewrite andb_true_r. apply andb_comm.
Qed.

Lemma trim_split (s : jsstring) :
  exists pre post,
    s = pre ++ trim s ++ post
    /\ forallb isWhiteSpace pre = true
    /\ forallb isWhiteSpace post = true.
Proof.
  destruct (trimStart_split s) as (pre & Hs & Hpre).
  destruct (trimStart_split (rev (trimStart s))) as (pre' & Hr & Hpre').
  exists pre, (rev pre'). repeat split.
  - rewrite Hs at 1. f_equal. unfold trim, trimEnd.
    rewrite <- rev_app_distr, <- Hr. now rewrite rev_involutive.
  - assumption.
  - now rewrite forallb_rev.
Qed.

Lemma trim_first (s : jsstring) (c : N) (r : jsstring) :
  trim s = c :: r -> isWhiteSpace c = false.
Proof.
  intros H.
  destruct (trimStart_split (rev (trimStart s))) as (pre' & Hr & _).
  apply (f_equal (@rev N)) in Hr. rewrite rev_involutive, rev_app_distr in Hr.
  fold (trimEnd (trimStart s)) in Hr. fold (trim s) in Hr.
  rewrite H in Hr. cbn [app] in Hr. now apply trimStart_head in Hr.
Qed.

Lemma trim_last (s : jsstring) (r : jsstring) (c : N) :
  trim s = r ++ [c] -> isWhiteSpace c = false.
Proof.
  unfold trim, trimEnd. intros H.
  apply (f_equal (@rev N)) in H. rewrite rev_involutive, rev_app_distr in H.
  cbn [rev app] in H. now apply trimStart_head in H.
Qed.

Lemma trim_idempotent (s : jsstring) : trim (trim s) = trim s.
Proof.
  assert (H1 : trimStart (trim s) = trim s)
    by (apply trimStart_id; intros c r; apply trim_first).
  unfold trim at 1. rewrite H1. unfold trim, trimEnd.
  rewrite rev_involutive. f_equal.
  apply trimStart_id. intros c r. apply trimStart_head.
Qed.

Lemma trim_nil_iff (s : jsstring) :
  trim s = [] <-> forallb isWhiteSpace s = true.
Proof.
  split.
  - intros H. destruct (trim_split s) as (pre & post & Hs & Hpre & Hpost).
    rewrite H in Hs. rewrite Hs, forallb_app, Hpre. exact Hpost.
  - intros H. unfold trim. now rewrite (trimStart_all _ H).
Qed.

(** X1.  [trim] gives the empty string exactly when every code unit of the
    field is white space (the empty field included); [signUp] then alerts
    that the address is missing, issues no request and leaves the page as
    it is. *)
Theorem signUp_white_space_only
    (server : Server) (activityName : jsstring) (p : Page) :
  (trim (emailInput p) = [] <-> forallb isWhiteSpace (emailInput p) = true)
  /\ (forallb isWhiteSpace (emailInput p) = true ->
      signUp server activityName p =
      (Normal tt, observe p [Alert (lit "Please enter your email address")])).
Proof.
  split; [apply trim_nil_iff|].
  intros H. apply signUp_empty_email. now apply trim_nil_iff.
Qed.

Lemma signUp_white_space_only_witness :
  signUp unreachable (lit "Chess Club")
    {| activitiesContainer := []; emailInput := [32; 9; 160; 8232; 10]%N; events := [] |} =
  (Normal tt,
   observe {| activitiesContainer := []; emailInput := [32; 9; 160; 8232; 10]%N; events := [] |}
     [Alert (lit "Please enter your email address")]).
Proof.
  apply (proj2 (signUp_white_space_only unreachable (lit "Chess Club")
                  {| activitiesContainer := [];
                     emailInput := [32; 9; 160; 8232; 10]%N;
                     events := [] |})).
  reflexivity.
Defined.

(** X2.  [trim] removes white space from the two ends and nothing else:
    the field is the trimmed value between two runs of white space, the
    trimmed value neither starts nor ends with white space, and trimming
    again changes nothing. *)
Theorem trim_strips_outer_white_space (s : jsstring) :
  (exists pre post,
      s = pre ++ trim s ++ post
      /\ forallb isWhiteSpace pre = true
      /\ forallb isWhiteSpace post = true)
  /\ (forall c r, trim s = c :: r -> isWhiteSpace c = false)
  /\ (forall r c, trim s = r ++ [c] -> isWhiteSpace c = false)
  /\ trim (trim s) = trim s.
Proof.
  split; [apply trim_split|]. split; [apply trim_first|].
  split; [apply trim_last|apply trim_idempotent].
Qed.

Lemma trim_strips_outer_white_space_witness :
  isWhiteSpace 97 = false /\ isWhiteSpace 109 = false.
Proof.
  destruct (trim_strips_outer_white_space (lit "  a@x.com ")) as (_ & Hfirst & Hlast & _).
  split.
  - apply (Hfirst 97%N (lit "@x.com")). reflexivity.
  - apply (Hlast (lit "a@x.co") 109%N). reflexivity.
Defined.

(** X3.  [signUp] reads the e-mail field only through [trim]: white space
    around the address changes neither the effects nor the container. *)
Theorem signUp_ignores_outer_white_space
    (server : Server) (activityName : jsstring) (p : Page) :
  events (snd (signUp server activityName (withEmail p (trim (emailInput p))))) =
  events (snd (signUp server activityName p))
  /\ activitiesContainer (snd (signUp server activityName (withEmail p (trim (emailInput p))))) =
     activitiesContainer (snd (signUp server activityName p)).
Proof.
  rewrite !signUp_eq. cbn [snd events activitiesContainer withEmail emailInput].
  rewrite trim_idempotent. split; reflexivity.
Qed.

(** ** What [signUp] leaves alone *)

Lemma loadResult_request (server : Server) :
  exists rest, snd (loadResult server) = loadRequest :: rest.
Proof.
  unfold loadResult.
  destruct (server GET (lit "/activities")) as [|[st [b|]]]; cbn [body].
  - eexists; reflexivity.
  - destruct (displayOutcome b); eexists; reflexivity.
  - eexists; reflexivity.
Qed.

Lemma signUpEffects_reload (server : Server) (activityName email : jsstring) :
  (fst (signUpEffects server activityName email) = None
   /\ existsb isGet (snd (signUpEffects server activityName email)) = false)
  \/ (fst (signUpEffects server activityName email) = Some (fst (loadResult server))
      /\ existsb isGet (snd (signUpEffects server activityName email)) = true).
Proof.
  unfold signUpEffects.
  destruct email as [|c email]; [now left|].
  destruct (negb (includes (c :: email) (lit "@"))); [now left|].
  destruct (signUpURL activityName (c :: email)) as [url|e]; [|now left].
  destruct (server POST url) as [|r]; [now left|].
  destruct (body r) as [b|]; [|now left].
  destruct (ok r).
  - destruct (let? m := get b message in ToString m) as [msg|e]; [|now left].
    right. split; [reflexivity|].
    destruct (loadResult_request server) as [rest ->]. reflexivity.
  - destruct (let? d := get b detail in ToString d); now left.
Qed.

(** X4.  [signUp] never writes the e-mail field.  It replaces the content
    of the container only by loading the list again: when no GET is among
    its effects the container is as before, and when there is one the
    container is what [loadActivities] leaves. *)
Theorem signUp_keeps_field_and_view
    (server : Server) (activityName : jsstring) (p : Page) :
  emailInput (snd (signUp server activityName p)) = emailInput p
  /\ exists new,
       events (snd (signUp server activityName p)) = events p ++ new
       /\ (existsb isGet new = false ->
           activitiesContainer (snd (signUp server activityName p)) =
           activitiesContainer p)
       /\ (existsb isGet new = true ->
           activitiesContainer (snd (signUp server activityName p)) =
           activitiesContainer (snd (loadActivities server p))).
Proof.
  rewrite signUp_eq, loadActivities_eq.
  cbn [snd emailInput events activitiesContainer repaint].
  split; [reflexivity|].
  exists (snd (signUpEffects server activityName (trim (emailInput p)))).
  split; [reflexivity|].
  destruct (signUpEffects_reload server activityName (trim (emailInput p)))
    as [[-> ->]|[-> ->]]; split; intros H; try discriminate; reflexivity.
Qed.

Lemma signUp_keeps_field_and_view_witness :
  let confirmation :=
    {| status := 200; body := Some (JObj [(lit "message", JStr (lit "Signed up"))]) |} in
  let list := {| status := 200; body := Some chessClub |} in
  activitiesContainer
    (snd (signUp (service confirmation list) (lit "Chess Club") (emptyPage "a@x.com"))) =
  activitiesContainer (snd (loadActivities (service confirmation list) (emptyPage "a@x.com")))
  /\ activitiesContainer
       (snd (signUp unreachable (lit "Chess Club") (emptyPage "a@x.com"))) = [].
Proof.
  intros confirmation list. split.
  - destruct (signUp_keeps_field_and_view (service confirmation list)
                (lit "Chess Club") (emptyPage "a@x.com"))
      as (_ & new & Hev & _ & Hreload).
    apply Hreload.
    vm_compute in Hev. subst new. reflexivity.
  - destruct (signUp_keeps_field_and_view unreachable
                (lit "Chess Club") (emptyPage "a@x.com"))
      as (_ & new & Hev & Hsame & _).
    apply Hsame.
    vm_compute in Hev. subst new. reflexivity.
Defined.

(** ** When a request is issued *)

Lemma includes_nil_at : includes [] (lit "@") = false.
Proof. reflexivity. Qed.

(** X5.  A sign-up request is issued only when the trimmed e-mail contains
    [@]; and when the activity name and the trimmed e-mail are well-formed
    strings, it is issued whenever the trimmed e-mail contains [@]. *)
Theorem signUp_posts_iff_at
    (server : Server) (activityName : jsstring) (p : Page) :
  exists new,
    events (snd (signUp server activityName p)) = events p ++ new
    /\ (existsb isPost new = true ->
        includes (trim (emailInput p)) (lit "@") = true)
    /\ (isWellFormed activityName = true ->
        isWellFormed (trim (emailInput p)) = true ->
        includes (trim (emailInput p)) (lit "@") = true ->
        existsb isPost new = true).
Proof.
  rewrite signUp_eq. cbn [snd events].
  exists (snd (signUpEffects server activityName (trim (emailInput p)))).
  split; [reflexivity|].
  unfold signUpEffects.
  destruct (trim (emailInput p)) as [|c email] eqn:He.
  { split; [discriminate|]. intros _ _ H. now rewrite includes_nil_at in H. }
  rewrite <- He.
  destruct (includes (trim (emailInput p)) (lit "@")) eqn:Hat; cbn [negb].
  2: { split; [discriminate|]. intros _ _ H. discriminate. }
  split; [reflexivity|]. intros Hname Hemail _.
  destruct (encodeURIComponent_wellFormed _ Hname) as (a & Ha & _).
  destruct (encodeURIComponent_wellFormed _ Hemail) as (e & Hen & _).
  unfold signUpURL. rewrite Ha, Hen. cbn [cbind].
  destruct (server POST _) as [|r]; [reflexivity|].
  destruct (body r) as [b|]; [|reflexivity].
  destruct (ok r).
  - now destruct (let? m := get b message in ToString m).
  - now destruct (let? d := get b detail in ToString d).
Qed.

Lemma signUp_posts_iff_at_witness :
  exists new,
    events (snd (signUp unreachable (lit "Chess Club") (emptyPage " a@x.com "))) = new
    /\ existsb isPost new = true.
Proof.
  destruct (signUp_posts_iff_at unreachable (lit "Chess Club") (emptyPage " a@x.com "))
    as (new & Hev & _ & Hposts).
  exists new. split; [exact Hev|].
  apply Hposts; reflexivity.
Defined.

(** ** What the loop leaves in the container *)

Lemma rendered_prefix (es : list (jsstring * JsVal)) :
  exists done rest,
    es = done ++ rest
    /\ Forall2 (fun entry card => renderCard (fst entry) (snd entry) = Normal card)
               done (rendered es)
    /\ match firstFailure es with
       | None => rest = []
       | Some e =>
           exists name details rest',
             rest = (name, details) :: rest' /\ renderCard name details = Throw e
       end.
Proof.
  induction es as [|[name details] es (done & rest & Hes & Hdone & Hrest)];
    cbn [rendered firstFailure].
  - exists [], []. repeat split. constructor.
  - destruct (renderCard name details) as [card|e] eqn:Hr.
    + exists ((name, details) :: done), rest. repeat split.
      * cbn [app]. now rewrite <- Hes.
      * now constructor.
      * assumption.
    + exists [], ((name, details) :: es). repeat split; [constructor|].
      now exists name, details, es.
Qed.

(** X6.  [displayActivities] writes neither the e-mail field nor the log.
    When [Object.entries] throws the container is left empty.  Otherwise the
    container holds one card for each entry of an initial part of the
    mapping, in order and whatever it held before: all of the mapping when
    the call returns, and the entries before the one whose rendering throws
    when the call throws. *)
Theorem displayActivities_keeps_rendered_prefix (activities : JsVal) (p : Page) :
  emailInput (snd (displayActivities activities p)) = emailInput p
  /\ events (snd (displayActivities activities p)) = events p
  /\ (forall e,
        entries activities = Throw e ->
        fst (displayActivities activities p) = Throw e
        /\ activitiesContainer (snd (displayActivities activities p)) = [])
  /\ (forall es,
        entries activities = Normal es ->
        exists done rest cards,
          es = done ++ rest
          /\ activitiesContainer (snd (displayActivities activities p)) = List.map Child cards
          /\ Forall2 (fun entry card => renderCard (fst entry) (snd entry) = Normal card)
                     done cards
          /\ (fst (displayActivities activities p) = Normal tt -> rest = [])
          /\ (forall e,
                fst (displayActivities activities p) = Throw e ->
                exists name details rest',
                  rest = (name, details) :: rest'
                  /\ renderCard name details = Throw e)).
Proof.
  rewrite displayActivities_run. cbn [fst snd repaint emailInput events activitiesContainer].
  split; [reflexivity|]. split; [apply app_nil_r|]. split.
  - intros e He. unfold displayOutcome, cardsOf. rewrite He. split; reflexivity.
  - intros es Hes. unfold displayOutcome, cardsOf. rewrite Hes.
    destruct (rendered_prefix es) as (done & rest & Hsplit & Hdone & Hrest).
    exists done, rest, (rendered es). repeat split; try assumption.
    + destruct (firstFailure es); [discriminate|]. intros _. assumption.
    + intros e He. destruct (firstFailure es) as [e'|]; [|discriminate].
      cbn [completion] in He. injection He as ->. assumption.
Qed.

Lemma displayActivities_keeps_rendered_prefix_witness :
  exists done rest cards,
    [(lit "Chess Club", staleCount); (lit "Art Club", JObj noRoster)] = done ++ rest
    /\ activitiesContainer
         (snd (displayActivities
                 (JObj [(lit "Chess Club", staleCount); (lit "Art Club", JObj noRoster)])
                 (emptyPage ""))) = List.map Child cards
    /\ List.length cards = 1%nat
    /\ exists name details rest',
         rest = (name, details) :: rest' /\ renderCard name details = Throw TypeError.
Proof.
  destruct (displayActivities_keeps_rendered_prefix
              (JObj [(lit "Chess Club", staleCount); (lit "Art Club", JObj noRoster)])
              (emptyPage ""))
    as (_ & _ & _ & Hprefix).
  destruct (Hprefix _ eq_refl) as (done & rest & cards & Hsplit & Hcards & _ & _ & Hthrow).
  exists done, rest, cards. repeat split; try assumption.
  - vm_compute in Hcards. destruct cards as [|c [|c' cards]]; try discriminate. reflexivity.
  - apply Hthrow. reflexivity.
Defined.

(** ** What [loadActivities] shows *)

Lemma displayOutcome_normal (b : JsVal) (u : unit) :
  displayOutcome b = Normal u ->
  exists es,
    entries b = Normal es
    /\ Forall2 (fun entry card => renderCard (fst entry) (snd entry) = Normal card)
               es (cardsOf b).
Proof.
  unfold displayOutcome, cardsOf. destruct (entries b) as [es|]; [|discriminate].
  intros H. exists es. split; [reflexivity|].
  destruct (rendered_prefix es) as (done & rest & Hsplit & Hdone & Hrest).
  destruct (firstFailure es); [discriminate|]. subst rest.
  rewrite app_nil_r in Hsplit. now subst done.
Qed.

(** X7.  [loadActivities] leaves the e-mail field alone and issues exactly
    one request, the GET of [/activities]; it never alerts.  Afterwards the
    container holds either the error text alone, the failure having been
    logged, or one card for every entry of the mapping received: never a
    part of the list. *)
Theorem loadActivities_all_or_error (server : Server) (p : Page) :
  emailInput (snd (loadActivities server p)) = emailInput p
  /\ exists log,
       events (snd (loadActivities server p)) =
       events p ++ Fetch GET (lit "/activities") :: log
       /\ existsb isFetch log = false
       /\ existsb isAlert log = false
       /\ ((activitiesContainer (snd (loadActivities server p)) = [Markup errorLoading]
            /\ exists e, log = loadFailure e)
           \/ (log = []
               /\ exists r b es cards,
                    server GET (lit "/activities") = Resolved r
                    /\ body r = Some b
                    /\ entries b = Normal es
                    /\ activitiesContainer (snd (loadActivities server p)) = List.map Child cards
                    /\ Forall2 (fun entry card =>
                                  renderCard (fst entry) (snd entry) = Normal card)
                               es cards)).
Proof.
  rewrite loadActivities_eq. cbn [snd repaint emailInput events activitiesContainer].
  split; [reflexivity|]. unfold loadResult.
  destruct (server GET (lit "/activities")) as [|r] eqn:Hs.
  { eexists. split; [reflexivity|]. repeat split. left. split; [reflexivity|]. eauto. }
  destruct (body r) as [b|] eqn:Hb.
  2: { eexists. split; [reflexivity|]. repeat split. left. split; [reflexivity|]. eauto. }
  destruct (displayOutcome b) as [u|e] eqn:Ho.
  - exists []. split; [reflexivity|]. repeat split. right. split; [reflexivity|].
    destruct (displayOutcome_normal _ Ho) as (es & Hes & Hcards).
    exists r, b, es, (cardsOf b). repeat split; assumption.
  - eexists. split; [reflexivity|]. repeat split. left. split; [reflexivity|]. eauto.
Qed.

(** X8.  Every load rebuilds the view from the answer alone: the content of
    the container after [loadActivities] does not depend on the page before
    it, so loading twice from the same answer shows what loading once
    shows. *)
Theorem loadActivities_rebuilds_view (server : Server) (p q : Page) :
  activitiesContainer (snd (loadActivities server p)) =
  activitiesContainer (snd (loadActivities server q))
  /\ activitiesContainer (snd (loadActivities server (snd (loadActivities server p)))) =
     activitiesContainer (snd (loadActivities server p)).
Proof.
  rewrite !loadActivities_eq. split; reflexivity.
Qed.

(** ** Answers that are not a mapping of records *)

Lemma renderCard_not_object (name : jsstring) (v : JsVal) :
  (forall props, v <> JObj props) -> renderCard name v = Throw TypeError.
Proof.
  intros H. destruct v; try reflexivity. now destruct (H props).
Qed.

(** X9.  Every value of the mapping has to be an object: an entry whose
    value is a string, a number, a boolean, [null] or an array makes
    [displayActivities] throw [TypeError], so that [loadActivities] shows the
    error text, whatever the status of the answer. *)
Theorem non_object_entry_shows_error
    (server : Server) (r : Response) (es : list (jsstring * JsVal))
    (name : jsstring) (v : JsVal) (p : Page) :
  server GET (lit "/activities") = Resolved r ->
  body r = Some (JObj es) ->
  In (name, v) es ->
  (forall props, v <> JObj props) ->
  fst (displayActivities (JObj es) p) = Throw TypeError
  /\ loadActivities server p =
     (Normal tt,
      repaint p [Markup errorLoading]
        [Fetch GET (lit "/activities");
         ConsoleError (lit "Error loading activities:") TypeError]).
Proof.
  intros Hs Hb Hin Hv.
  assert (Hout : displayOutcome (JObj es) = Throw TypeError).
  { unfold displayOutcome. cbn [entries].
    now rewrite (firstFailure_In _ _ _ Hin (renderCard_not_object name Hv)). }
  split.
  - rewrite displayActivities_run. exact Hout.
  - rewrite loadActivities_eq. unfold loadResult. rewrite Hs, Hb, Hout. reflexivity.
Qed.

Lemma non_object_entry_shows_error_witness :
  loadActivities (always 404 (Some (JObj [(lit "detail", JStr (lit "Not Found"))])))
    (emptyPage "") =
  (Normal tt,
   repaint (emptyPage "") [Markup errorLoading]
     [Fetch GET (lit "/activities");
      ConsoleError (lit "Error loading activities:") TypeError]).
Proof.
  refine (proj2 (@non_object_entry_shows_error
                   (always 404 (Some (JObj [(lit "detail", JStr (lit "Not Found"))])))
                   {| status := 404;
                      body := Some (JObj [(lit "detail", JStr (lit "Not Found"))]) |}
                   [(lit "detail", JStr (lit "Not Found"))]
                   (lit "detail") (JStr (lit "Not Found")) (emptyPage "")
                   eq_refl eq_refl _ _)).
  - left. reflexivity.
  - discriminate.
Defined.

(** ** Round trip of the encoding *)

Section RoundTrip.

Ltac Zify.zify_post_hook ::= Z.to_euclidean_division_equations.

(** Induction over a well-formed string, one code point at a time. *)
Lemma wellFormed_ind (P : jsstring -> Prop) :
  P [] ->
  (forall c s,
      (c < 65536)%N -> isLeadingSurrogate c = false -> isTrailingSurrogate c = false ->
      isWellFormed s = true -> P s -> P (c :: s)) ->
  (forall c d s,
      isLeadingSurrogate c = true -> isTrailingSurrogate d = true ->
      isWellFormed s = true -> P s -> P (c :: d :: s)) ->
  forall s, isWellFormed s = true -> P s.
Proof.
  intros Hnil Hunit Hpair s.
  remember (List.length s) as n eqn:Hn.
  assert (Hle : (List.length s <= n)%nat) by lia. clear Hn.
  revert s Hle. induction n as [|n IH]; intros s Hle Hwf.
  - destruct s; [assumption | simpl in Hle; lia].
  - destruct s as [|c rest]; [assumption|].
    cbn [isWellFormed] in Hwf. apply andb_prop in Hwf as [Hc Hwf].
    destruct (isLeadingSurrogate c) eqn:Hl.
    + destruct rest as [|d rest']; [discriminate|].
      apply andb_prop in Hwf as [Hd Hwf].
      apply Hpair; try assumption. apply IH; [simpl in Hle; lia | assumption].
    + apply andb_prop in Hwf as [Ht Hwf]. apply negb_true_iff in Ht.
      apply Hunit; try assumption; [lia|]. apply IH; [simpl in Hle; lia | assumption].
Qed.

Lemma decodeUtf8_cons (b0 : N) (r0 : list N) :
  decodeUtf8 (b0 :: r0) =
  if (b0 <? 128)%N then option_map (cons b0) (decodeUtf8 r0)
  else if (b0 <? 224)%N then
    match r0 with
    | b1 :: r1 =>
        option_map (cons ((b0 - 192) * 64 + (b1 - 128))%N) (decodeUtf8 r1)
    | _ => None
    end
  else if (b0 <? 240)%N then
    match r0 with
    | b1 :: b2 :: r2 =>
        option_map (cons ((b0 - 224) * 4096 + (b1 - 128) * 64 + (b2 - 128))%N)
                   (decodeUtf8 r2)
    | _ => None
    end
  else
    match r0 with
    | b1 :: b2 :: b3 :: r3 =>
        option_map
          (cons ((b0 - 240) * 262144 + (b1 - 128) * 4096
                 + (b2 - 128) * 64 + (b3 - 128))%N)
          (decodeUtf8 r3)
    | _ => None
    end.
Proof. reflexivity. Qed.

Lemma decodeUtf8_utf8 (cp : N) (r : list N) :
  (cp < 1114112)%N ->
  decodeUtf8 (utf8 cp ++ r) = option_map (cons cp) (decodeUtf8 r).
Proof.
  intros H. unfold utf8.
  destruct (N.ltb_spec cp 128) as [H1|H1].
  { cbn [app]. rewrite decodeUtf8_cons.
    replace (cp <? 128)%N with true by lia. reflexivity. }
  destruct (N.ltb_spec cp 2048) as [H2|H2].
  { cbn [app]. rewrite decodeUtf8_cons.
    replace (192 + cp / 64 <? 128)%N with false by lia.
    replace (192 + cp / 64 <? 224)%N with true by lia.
    replace ((192 + cp / 64 - 192) * 64 + (128 + cp mod 64 - 128))%N with cp by lia.
    reflexivity. }
  destruct (N.ltb_spec cp 65536) as [H3|H3].
  { cbn [app]. rewrite decodeUtf8_cons.
    replace (224 + cp / 4096 <? 128)%N with false by lia.
    replace (224 + cp / 4096 <? 224)%N with false by lia.
    replace (224 + cp / 4096 <? 240)%N with true by lia.
    replace ((224 + cp / 4096 - 224) * 4096 + (128 + (cp / 64) mod 64 - 128) * 64
             + (128 + cp mod 64 - 128))%N with cp by lia.
    reflexivity. }
  cbn [app]. rewrite decodeUtf8_cons.
  replace (240 + cp / 262144 <? 128)%N with false by lia.
  replace (240 + cp / 262144 <? 224)%N with false by lia.
  replace (240 + cp / 262144 <? 240)%N with false by lia.
  replace ((240 + cp / 262144 - 240) * 262144 + (128 + (cp / 4096) mod 64 - 128) * 4096
           + (128 + (cp / 64) mod 64 - 128) * 64 + (128 + cp mod 64 - 128))%N
    with cp by lia.
  reflexivity.
Qed.

Lemma toUTF16_surrogatePair (c d : N) :
  isLeadingSurrogate c = true -> isTrailingSurrogate d = true ->
  toUTF16 (surrogatePair c d) = [c; d].
Proof.
  unfold isLeadingSurrogate, isTrailingSurrogate, surrogatePair, toUTF16.
  intros Hc Hd.
  destruct (N.ltb_spec ((c - 55296) * 1024 + (d - 56320) + 65536) 65536); [lia|].
  f_equal; [|f_equal]; lia.
Qed.

Lemma decode_octets (s : jsstring) :
  isWellFormed s = true ->
  option_map (flat_map toUTF16) (decodeUtf8 (utf8Octets s)) = Some s.
Proof.
  revert s. apply wellFormed_ind.
  - reflexivity.
  - intros c s Hc Hl Ht _ IH.
    rewrite utf8Octets_cons by assumption.
    rewrite decodeUtf8_utf8 by lia.
    destruct (decodeUtf8 (utf8Octets s)) as [cps|]; [|discriminate].
    cbn [option_map flat_map] in *. injection IH as ->.
    unfold toUTF16. destruct (N.ltb_spec c 65536); [reflexivity | lia].
  - intros c d s Hc Hd _ IH.
    rewrite utf8Octets_pair by assumption.
    rewrite decodeUtf8_utf8 by now apply surrogatePair_range.
    destruct (decodeUtf8 (utf8Octets s)) as [cps|]; [|discriminate].
    cbn [option_map flat_map] in *. injection IH as ->.
    now rewrite toUTF16_surrogatePair.
Qed.

Lemma encode_decode (s : jsstring) :
  isWellFormed s = true ->
  exists a,
    encodeURIComponent s = Normal a
    /\ forallb isComponentChar a = true
    /\ decodeComponent a = Some s.
Proof.
  intros Hwf.
  destruct (encodeURIComponent_wellFormed _ Hwf) as (a & Ha & Hchars & Hdec).
  exists a. repeat split; try assumption.
  unfold decodeComponent. rewrite Hdec.
  pose proof (decode_octets _ Hwf) as H.
  destruct (decodeUtf8 (utf8Octets s)); [|discriminate].
  cbn [option_map] in H. exact H.
Qed.

End RoundTrip.

(** X10.  [encodeURIComponent] loses nothing: on a well-formed string it
    returns a component that percent-decodes and UTF-8-decodes to the string
    itself, so two well-formed strings with the same encoding are equal. *)
Theorem encodeURIComponent_round_trip (s t : jsstring) :
  isWellFormed s = true ->
  (exists a, encodeURIComponent s = Normal a /\ decodeComponent a = Some s)
  /\ (isWellFormed t = true -> encodeURIComponent s = encodeURIComponent t -> s = t).
Proof.
  intros Hs. destruct (encode_decode _ Hs) as (a & Ha & _ & Hdec).
  split; [now exists a|].
  intros Ht Heq. destruct (encode_decode _ Ht) as (b & Hb & _ & Hdec').
  rewrite Ha, Hb in Heq. injection Heq as ->. congruence.
Qed.

Lemma encodeURIComponent_round_trip_witness :
  exists a,
    encodeURIComponent [67; 233; 8364; 55357; 56832; 47]%N = Normal a
    /\ decodeComponent a = Some [67; 233; 8364; 55357; 56832; 47]%N.
Proof.
  apply (proj1 (@encodeURIComponent_round_trip
                  [67; 233; 8364; 55357; 56832; 47]%N [] eq_refl)).
Defined.

(** ** The shape of the request URL *)

Lemma component_char_absent (a : jsstring) (c : N) :
  forallb isComponentChar a = true -> isComponentChar c = false -> ~ In c a.
Proof.
  intros Ha Hc Hin. rewrite forallb_forall in Ha. specialize (Ha c Hin). congruence.
Qed.

Lemma split_at_first (c : N) (a a' x y : jsstring) :
  ~ In c a -> ~ In c a' -> a ++ c :: x = a' ++ c :: y -> a = a' /\ x = y.
Proof.
  revert a'. induction a as [|u a IH]; intros [|u' a'] Ha Ha' H; cbn [app] in H.
  - injection H as ->. now split.
  - injection H as <- _. destruct Ha'. now left.
  - injection H as -> _. destruct Ha. now left.
  - injection H as -> H. destruct (IH a') as [-> ->]; try assumption.
    + intros Hin. apply Ha. now right.
    + intros Hin. apply Ha'. now right.
    + now split.
Qed.

(** X11.  The activity name and the e-mail cannot change the shape of the
    request URL: for well-formed strings the URL has exactly the three
    slashes, the one question mark and the one equals sign of the template,
    and no ampersand, hash or space, whatever characters the two strings
    hold. *)
Theorem signUpURL_structure (activityName email : jsstring) :
  isWellFormed activityName = true ->
  isWellFormed email = true ->
  exists url,
    signUpURL activityName email = Normal url
    /\ count_occ N.eq_dec url 47%N = 3%nat
    /\ count_occ N.eq_dec url 63%N = 1%nat
    /\ count_occ N.eq_dec url 61%N = 1%nat
    /\ count_occ N.eq_dec url 38%N = 0%nat
    /\ count_occ N.eq_dec url 35%N = 0%nat
    /\ count_occ N.eq_dec url 32%N = 0%nat.
Proof.
  intros Hname Hemail.
  destruct (encodeURIComponent_wellFormed _ Hname) as (a & Ha & Hachars & _).
  destruct (encodeURIComponent_wellFormed _ Hemail) as (e & He & Hechars & _).
  exists (lit "/activities/" ++ a ++ lit "/signup?email=" ++ e).
  split; [unfold signUpURL; now rewrite Ha, He|].
  assert (Hcount : forall c, isComponentChar c = false ->
            count_occ N.eq_dec (lit "/activities/" ++ a ++ lit "/signup?email=" ++ e) c =
            (count_occ N.eq_dec (lit "/activities/") c
             + count_occ N.eq_dec (lit "/signup?email=") c)%nat).
  { intros c Hc. rewrite !count_occ_app.
    rewrite (proj1 (count_occ_not_In N.eq_dec a c) (component_char_absent a c Hachars Hc)).
    rewrite (proj1 (count_occ_not_In N.eq_dec e c) (component_char_absent e c Hechars Hc)).
    lia. }
  repeat split; rewrite Hcount; reflexivity.
Qed.

Lemma signUpURL_structure_witness :
  exists url,
    signUpURL (lit "Art/Craft? #1 & more") (lit "a=b@x.com") = Normal url
    /\ count_occ N.eq_dec url 47%N = 3%nat
    /\ count_occ N.eq_dec url 63%N = 1%nat.
Proof.
  destruct (@signUpURL_structure (lit "Art/Craft? #1 & more") (lit "a=b@x.com")
              eq_refl eq_refl)
    as (url & Hurl & Hslash & Hquestion & _).
  exists url. repeat split; assumption.
Defined.

(** X12.  Different sign-ups give different requests: for well-formed
    strings, the URL determines the activity name and the e-mail. *)
Theorem signUpURL_injective (activityName email activityName' email' : jsstring) :
  isWellFormed activityName = true ->
  isWellFormed email = true ->
  isWellFormed activityName' = true ->
  isWellFormed email' = true ->
  signUpURL activityName email = signUpURL activityName' email' ->
  activityName = activityName' /\ email = email'.
Proof.
  intros Hn He Hn' He' Heq.
  destruct (encode_decode _ Hn) as (a & Ha & Hachars & Hadec).
  destruct (encode_decode _ He) as (e & Hen & Hechars & Hedec).
  destruct (encode_decode _ Hn') as (a' & Ha' & Hachars' & Hadec').
  destruct (encode_decode _ He') as (e' & Hen' & Hechars' & Hedec').
  unfold signUpURL in Heq. rewrite Ha, Hen, Ha', Hen' in Heq. cbn [cbind] in Heq.
  injection Heq as Heq.
  apply split_at_first in Heq as [-> Heq];
    try (apply component_char_absent; [assumption | reflexivity]).
  injection Heq as ->.
  split; congruence.
Qed.

Lemma signUpURL_injective_witness :
  lit "Chess Club" = lit "Chess Club" /\ lit "a@x.com" = lit "a@x.com".
Proof.
  apply (@signUpURL_injective (lit "Chess Club") (lit "a@x.com")
           (lit "Chess Club") (lit "a@x.com")); reflexivity.
Defined.

(** ** The participants list *)









(** X14.  What the participants list is when [participants] is not an
    array.  A falsy value (absent, [null], [0], [false], the empty string),
    a number or a boolean gives the placeholder.  A non-empty string has a
    positive length but no [map]: the expression throws [TypeError].  An
    object gives the placeholder or throws [TypeError], never a list. *)
Theorem participants_not_an_array (details v : JsVal) :
  get details participants = Normal v ->
  (ToBoolean v = false -> participantsList details = Normal noParticipants)
  /\ (forall n, v = JNum n -> participantsList details = Normal noParticipants)
  /\ (forall b, v = JBool b -> participantsList details = Normal noParticipants)
  /\ (forall s, v = JStr s -> s <> [] -> participantsList details = Throw TypeError)
  /\ (forall props,
        v = JObj props ->
        participantsList details = Normal noParticipants
        \/ participantsList details = Throw TypeError).
Proof.
  intros Hp. unfold participantsList. rewrite Hp. cbn [cbind].
  split; [now intros ->|]. split; [|split; [|split]].
  - intros n ->. cbn. now destruct (n =? 0)%Z.
  - intros b ->. cbn. now destruct b.
  - intros s -> Hs. destruct s as [|c s]; [congruence|].
    cbn [ToBoolean get cbind gtZero List.length].
    replace (0 <? Z.of_nat (S (List.length s)))%Z with true by lia.
    reflexivity.
  - intros props ->. cbn [ToBoolean].
    destruct (let? n := get (JObj props) length in gtZero n) as [[|]|e] eqn:Hn;
      cbn [cbind].
    + right. reflexivity.
    + left. reflexivity.
    + right. f_equal.
      assert (H : onlyTypeError (let? n := get (JObj props) length in gtZero n))
        by auto with throws.
      now apply H.
Qed.

Lemma participants_not_an_array_witness :
  participantsList (JObj [(lit "participants", JStr (lit "a@x.com, b@y.org"))])
  = Throw TypeError
  /\ participantsList (JObj [(lit "participants", JNum 3)]) = Normal noParticipants
  /\ participantsList (JObj noRoster) = Normal noParticipants.
Proof.
  split; [|split].
  - apply (proj1 (proj2 (proj2 (proj2
             (@participants_not_an_array
                (JObj [(lit "participants", JStr (lit "a@x.com, b@y.org"))])
                (JStr (lit "a@x.com, b@y.org")) eq_refl))))
             (lit "a@x.com, b@y.org") eq_refl).
    discriminate.
  - apply (proj1 (proj2 (@participants_not_an_array
                           (JObj [(lit "participants", JNum 3)]) (JNum 3) eq_refl))
             3%Z eq_refl).
  - apply (proj1 (@participants_not_an_array (JObj noRoster) JUndefined eq_refl)).
    reflexivity.
Defined.

(** ** Capacity is shown, never enforced *)

Lemma cardHTML_button (name d s count maxp plist : jsstring) :
  includes (cardHTML name d s count maxp plist) (signUpButton name) = true.
Proof.
  unfold cardHTML.
  rewrite (app_assoc newline), (app_assoc _ (h2Line name)),
    (app_assoc _ newline), (app_assoc _ (indent 12)),
    (app_assoc _ (descriptionLine d)), (app_assoc _ newline),
    (app_assoc _ (indent 12)), (app_assoc _ (scheduleLine s)),
    (app_assoc _ newline), (app_assoc _ (indent 12)),
    (app_assoc _ (capacityLine count maxp)), (app_assoc _ newline),
    (app_assoc _ (indent 12)), (app_assoc _ (participantsSection plist)),
    (app_assoc _ newline), (app_assoc _ (indent 12)).
  apply includes_app.
Qed.

(** X15.  For a record without [current_participants] whose [participants]
    is an array of strings and whose [max_participants] is a safe integer,
    the card holds the capacity paragraph with the number of participants
    over [max_participants], and the button
    [<button onclick="signUp('name')">Sign Up</button>], whatever the two
    numbers are: the client does not compare them, and a full or overfull
    activity still offers the button.  (34 is the double quote.) *)
Theorem capacity_shown_not_enforced
    (name : jsstring) (props : list (jsstring * JsVal))
    (d s : jsstring) (m : Z) (emails : list jsstring) :
  ownProperty props (lit "description") = Some (JStr d) ->
  ownProperty props (lit "schedule") = Some (JStr s) ->
  ownProperty props (lit "max_participants") = Some (JNum m) ->
  ownProperty props (lit "participants") = Some (JArr (List.map JStr emails)) ->
  ownProperty props (lit "current_participants") = None ->
  isSafeInteger m = true ->
  isArrayLength (List.length emails) = true ->
  exists card,
    renderCard name (JObj props) = Normal card
    /\ includes (innerHTML card)
         (lit "<p class=" ++ [34%N] ++ lit "capacity" ++ [34%N]
          ++ lit "><strong>Capacity:</strong> "
          ++ ofZ (Z.of_nat (List.length emails)) ++ lit "/" ++ ofZ m ++ lit "</p>") = true
    /\ includes (innerHTML card)
         (lit "<button onclick=" ++ [34%N] ++ lit "signUp('" ++ name ++ lit "')"
          ++ [34%N] ++ lit ">Sign Up</button>") = true.
Proof.
  intros Hd Hs Hm Hp Hc Hsafe Hlen.
  assert (Hact : isActivity (JObj props) = true).
  { cbn [isActivity]. rewrite Hd, Hs, Hm, Hp, Hc, Hsafe, length_map, Hlen.
    rewrite andb_true_r. cbn [andb].
    clear. induction emails as [|e emails IH]; [reflexivity | exact IH]. }
  destruct (renderCard_activity name _ Hact) as (card & Hr & _).
  exists card. split; [assumption|].
  destruct (renderCard_inv _ _ Hr)
    as (plist & d' & s' & count & maxp & _ & _ & _ & Hcount & Hmax & ->).
  rewrite (@capacityCount_array (JObj props) (List.map JStr emails) JUndefined) in Hcount
    by first [apply get_own; assumption | apply get_absent; assumption].
  rewrite (@get_own props max_participants _ Hm) in Hmax.
  cbn [cbind ToBoolean ToString] in Hcount, Hmax.
  injection Hcount as <-. injection Hmax as <-. rewrite length_map.
  cbn [innerHTML]. split.
  - exact (cardHTML_capacity name d' s' (ofZ (Z.of_nat (List.length emails))) (ofZ m) plist).
  - exact (cardHTML_button name d' s' (ofZ (Z.of_nat (List.length emails))) (ofZ m) plist).
Qed.

Lemma capacity_shown_not_enforced_witness :
  exists card,
    renderCard (lit "Chess Club")
      (JObj [(lit "description", JStr (lit "Learn strategies"));
             (lit "schedule", JStr (lit "Mon"));
             (lit "max_participants", JNum 1);
             (lit "participants", JArr [JStr (lit "a@x.com"); JStr (lit "b@y.org")])])
    = Normal card
    /\ includes (innerHTML card)
         (lit "<p class=" ++ [34%N] ++ lit "capacity" ++ [34%N]
          ++ lit "><strong>Capacity:</strong> 2/1</p>") = true
    /\ includes (innerHTML card)
         (lit "<button onclick=" ++ [34%N] ++ lit "signUp('Chess Club')"
          ++ [34%N] ++ lit ">Sign Up</button>") = true.
Proof.
  apply (@capacity_shown_not_enforced (lit "Chess Club")
           [(lit "description", JStr (lit "Learn strategies"));
            (lit "schedule", JStr (lit "Mon"));
            (lit "max_participants", JNum 1);
            (lit "participants", JArr [JStr (lit "a@x.com"); JStr (lit "b@y.org")])]
           (lit "Learn strategies") (lit "Mon") 1%Z [lit "a@x.com"; lit "b@y.org"]);
    reflexivity.
Defined.

(** ** Kinds of failure and number of notifications *)

Lemma firstFailure_throws (es : list (jsstring * JsVal)) (e : JsError) :
  firstFailure es = Some e -> e = TypeError.
Proof.
  induction es as [|[name details] es IH]; cbn [firstFailure]; [discriminate|].
  destruct (renderCard name details) as [card|e'] eqn:Hr; [assumption|].
  intros H. injection H as <-. now apply (@renderCard_throws name details).
Qed.

(** X16.  The only exception [displayActivities] can throw is [TypeError],
    so the only errors [loadActivities] can log are the transport failure,
    the JSON parse error and [TypeError]. *)
Theorem displayActivities_throws_only_TypeError :
  (forall activities p e,
      fst (displayActivities activities p) = Throw e -> e = TypeError)
  /\ (forall server p label e,
        In (ConsoleError label e) (events (snd (loadActivities server p))) ->
        In (ConsoleError label e) (events p)
        \/ (label = lit "Error loading activities:"
            /\ (e = NetworkError \/ e = SyntaxError \/ e = TypeError))).
Proof.
  assert (Hdisplay : forall activities e, displayOutcome activities = Throw e -> e = TypeError).
  { intros activities e. unfold displayOutcome.
    destruct (entries activities) as [es|e'] eqn:He.
    - destruct (firstFailure es) as [e'|] eqn:Hf; [|discriminate].
      intros H. injection H as <-. now apply firstFailure_throws with es.
    - intros H. injection H as <-. now apply (@entries_throws activities). }
  split.
  - intros activities p e. rewrite displayActivities_run. apply Hdisplay.
  - intros server p label e. rewrite loadActivities_eq.
    cbn [snd repaint events]. intros Hin.
    apply in_app_or in Hin as [Hin|Hin]; [now left|]. right.
    revert Hin. unfold loadResult.
    destruct (server GET (lit "/activities")) as [|r].
    { intros [H|[H|[]]]; [discriminate|]. injection H as <- <-. auto. }
    destruct (body r) as [b|].
    2: { intros [H|[H|[]]]; [discriminate|]. injection H as <- <-. auto. }
    destruct (displayOutcome b) as [u|e'] eqn:Ho.
    + intros [H|[]]. discriminate.
    + intros [H|[H|[]]]; [discriminate|]. injection H as <- <-.
      split; [reflexivity|]. right. right. now apply Hdisplay with b.
Qed.

Lemma displayActivities_throws_only_TypeError_witness :
  fst (displayActivities JNull (emptyPage "")) = Throw TypeError
  /\ In (ConsoleError (lit "Error loading activities:") TypeError)
        (events (snd (loadActivities (always 200 (Some JNull)) (emptyPage "")))).
Proof.
  split.
  - destruct (fst (displayActivities JNull (emptyPage ""))) as [u|e] eqn:H.
    + discriminate.
    + f_equal.
      exact (proj1 displayActivities_throws_only_TypeError JNull (emptyPage "") e H).
  - right. left. reflexivity.
Defined.

Lemma loadResult_events (server : Server) :
  snd (loadResult server) = [loadRequest]
  \/ exists e, snd (loadResult server) = loadRequest :: loadFailure e.
Proof.
  unfold loadResult.
  destruct (server GET (lit "/activities")) as [|[st [b|]]]; cbn [body].
  - right. eexists; reflexivity.
  - destruct (displayOutcome b); [left | right; eexists]; reflexivity.
  - right. eexists; reflexivity.
Qed.

(** X17.  Every call of [signUp] notifies the user exactly once: whatever
    the field holds and whatever the service answers, exactly one alert is
    shown.  At most one POST is issued, and the list is fetched at most
    once and only after the POST and the alert: the requests and alerts of
    a call are, in this order, one alert; or the POST and one alert; or the
    POST, one alert and the GET of [/activities]. *)
Theorem signUp_alerts_exactly_once
    (server : Server) (activityName : jsstring) (p : Page) :
  exists new,
    events (snd (signUp server activityName p)) = events p ++ new
    /\ List.length (filter isAlert new) = 1%nat
    /\ (List.length (filter isPost new) <= 1)%nat
    /\ (List.length (filter isGet new) <= List.length (filter isPost new))%nat
    /\ ((exists msg,
           filter (fun e => isFetch e || isAlert e) new = [Alert msg])
        \/ (exists url msg,
              filter (fun e => isFetch e || isAlert e) new =
              [Fetch POST url; Alert msg])
        \/ (exists url msg,
              filter (fun e => isFetch e || isAlert e) new =
              [Fetch POST url; Alert msg; Fetch GET (lit "/activities")])).
Proof.
  rewrite signUp_eq. cbn [snd events].
  exists (snd (signUpEffects server activityName (trim (emailInput p)))).
  split; [reflexivity|]. unfold signUpEffects.
  destruct (trim (emailInput p)) as [|c email].
  { repeat (split; [cbn; lia|]). left. eexists. reflexivity. }
  destruct (negb (includes (c :: email) (lit "@"))).
  { repeat (split; [cbn; lia|]). left. eexists. reflexivity. }
  destruct (signUpURL activityName (c :: email)) as [url|e].
  2: { repeat (split; [cbn; lia|]). left. eexists. reflexivity. }
  destruct (server POST url) as [|r].
  { repeat (split; [cbn; lia|]). right. left. do 2 eexists. reflexivity. }
  destruct (body r) as [b|].
  2: { repeat (split; [cbn; lia|]). right. left. do 2 eexists. reflexivity. }
  destruct (ok r).
  - destruct (let? m := get b message in ToString m) as [msg|e].
    2: { repeat (split; [cbn; lia|]). right. left. do 2 eexists. reflexivity. }
    destruct (loadResult_events server) as [->|[e ->]];
      repeat (split; [cbn; lia|]); right; right; do 2 eexists; reflexivity.
  - destruct (let? d := get b detail in ToString d);
      repeat (split; [cbn; lia|]); right; left; do 2 eexists; reflexivity.
Qed.
